(** * Voice conversation front end: formal model and properties

    The development embeds the stateful logic of three source files

    - [Projeto/frontend/src/components/RealTimeChat.tsx]   (module [RealTimeChat]),
    - [Projeto/frontend/src/hooks/useAudioPlayer.ts]       (module [AudioPlayer]),
    - the [AdvancedVoiceChat] component                     (module [AdvancedVoiceChat]),

    as state transformers over explicit component states.  React state
    variables, refs and the browser objects the handlers touch (sockets,
    recorders, audio elements, timers) are fields of a state record; every
    handler of the source is a function of the same name. *)

From Stdlib Require Import List String Ascii Bool Arith ZArith QArith Lia.
From Stdlib Require Import Qfield.
From Stdlib Require Import Floats.PrimFloat Floats.SpecFloat Floats.FloatOps.
Import ListNotations.
Open Scope string_scope.
Open Scope list_scope.
Open Scope nat_scope.

(** ** Errors and the call monad *)

(** How a call can fail.  The first seven names are the error taxonomy of
    the specification; [JsError] is an exception raised by the platform
    (a rejected [fetch], [getUserMedia] or [play], a property read on
    [undefined]). *)
Inductive Error : Type :=
| DeviceUnavailable
| AlreadyRecording
| TranscriptionFailed
| NotConnected
| NoModelAvailable
| PlaybackBusy
| BackendError
| JsError.

(** A call runs on a state and ends either normally with a value or with an
    error.  State changes made before an exception stay in place, as in
    JavaScript. *)
Definition M (S A : Type) : Type := S -> (Error + A) * S.

Definition ret {S A} (a : A) : M S A := fun s => (inr a, s).

Definition bind {S A B} (c : M S A) (k : A -> M S B) : M S B :=
  fun s =>
    match c s with
    | (inl e, s') => (inl e, s')
    | (inr a, s') => k a s'
    end.

Definition throw {S A} (e : Error) : M S A := fun s => (inl e, s).

(** [try c catch h]: the handler runs on the state the body left behind. *)
Definition try_catch {S A} (c : M S A) (h : Error -> M S A) : M S A :=
  fun s =>
    match c s with
    | (inl e, s') => h e s'
    | (inr a, s') => (inr a, s')
    end.

(** [try c finally f]. *)
Definition try_finally {S A} (c : M S A) (f : M S unit) : M S A :=
  fun s =>
    match c s with
    | (r, s') =>
        match f s' with
        | (inl e, s'') => (inl e, s'')
        | (inr _, s'') => (r, s'')
        end
    end.

Definition modify {S} (f : S -> S) : M S unit := fun s => (inr tt, f s).
Definition gets {S A} (f : S -> A) : M S A := fun s => (inr (f s), s).
Definition result {S A} (r : (Error + A) * S) : Error + A := fst r.
Definition state_of {S A} (r : (Error + A) * S) : S := snd r.

Declare Scope call_scope.
Delimit Scope call_scope with call.
Notation "x <- c ;; k" := (bind c (fun x => k))
  (at level 61, c at next level, right associativity) : call_scope.
Notation "c ;; k" := (bind c (fun _ => k))
  (at level 61, right associativity) : call_scope.

(** ** JavaScript helpers *)

(** White space removed by [String.prototype.trim], on the ASCII range. *)
Definition is_space (c : ascii) : bool :=
  let n := nat_of_ascii c in
  (n =? 9) || (n =? 10) || (n =? 11) || (n =? 12) || (n =? 13) || (n =? 32).

Fixpoint trimStart (s : string) : string :=
  match s with
  | EmptyString => EmptyString
  | String c r => if is_space c then trimStart r else s
  end.

Fixpoint rev_string (s acc : string) : string :=
  match s with
  | EmptyString => acc
  | String c r => rev_string r (String c acc)
  end.

Definition trimEnd (s : string) : string :=
  rev_string (trimStart (rev_string s EmptyString)) EmptyString.

Definition trim (s : string) : string := trimEnd (trimStart s).

(** A string is truthy when it is not empty. *)
Definition nonempty (s : string) : bool :=
  match s with EmptyString => false | String _ _ => true end.

(** JavaScript numbers are IEEE 754 binary64 values: [float], with the
    operations of [PrimFloat], which round to nearest, ties to even. *)

(** An optional number is truthy when it is present and neither a zero nor
    [NaN]. *)
Definition truthy (x : option float) : bool :=
  match x with
  | Some q => negb (PrimFloat.is_zero q || PrimFloat.is_nan q)
  | None => false
  end.

(** The number that holds a count: the binary64 value nearest to [n], [n]
    itself up to [2^53].  Counts are kept as natural numbers in the states
    below and turned into numbers where the source computes with them. *)
Definition float_of_nat (n : nat) : float :=
  SF2Prim (binary_normalize prec emax (Z.of_nat n) 0 false).

(** The rational number a finite binary64 value stands for; infinities and
    [NaN] stand for none. *)
Definition exact (x : float) : option Q :=
  match Prim2SF x with
  | S754_zero _ => Some 0%Q
  | S754_finite sign m e =>
      let v := if (e <? 0)%Z
               then (Zpos m # Pos.shiftl 1 (Z.to_N (- e)))%Q
               else inject_Z (Zpos m * 2 ^ e) in
      Some (if sign then Qopp v else v)
  | S754_infinity _ => None
  | S754_nan => None
  end.

Definition Qnat (n : nat) : Q := inject_Z (Z.of_nat n).

(** Browser objects are kept in lists and named by their position;
    [update_nth i f l] changes the object at position [i]. *)
Fixpoint update_nth {A : Type} (i : nat) (f : A -> A) (l : list A) : list A :=
  match l, i with
  | [], _ => []
  | x :: r, O => f x :: r
  | x :: r, S j => x :: update_nth j f r
  end.

(** ** RealTimeChat.tsx *)

Module RealTimeChat.

Inductive Role : Type := user | assistant.

(** [interface Message].  The [id] and [timestamp] fields are clock readings
    ([Date.now()], [new Date()]) that no handler reads back; they are not
    part of the record. *)
Record Message : Type := mkMessage {
  role : Role;
  content : string;
  processingTime : option float
}.

(** [WebSocket.readyState]. *)
Inductive ReadyState : Type := CONNECTING | OPEN | CLOSING | CLOSED.

(** The object given to [JSON.stringify] in [sendMessage]. *)
Record Frame : Type := mkFrame {
  frame_type : string;
  frame_content : string
}.

(** A [WebSocket] made by [connectWebSocket].  [closure] is the value of
    [totalMessages] in the render whose effect defined that
    [connectWebSocket]: the socket's [onmessage] and [onclose] handlers read
    it from their scope. *)
Record Socket : Type := mkSocket {
  readyState : ReadyState;
  closure : nat;
  sent : list Frame
}.

(** A pending [setTimeout(connectWebSocket, delay)]. *)
Record Timer : Type := mkTimer {
  delay : nat;
  timer_closure : nat
}.

(** Life of a [MediaRecorder] made by [startRecording]: recording; [stop()]
    called and the [stop] event queued; [onstop] running and waiting for the
    transcription; tracks stopped. *)
Inductive Phase : Type := rec_recording | rec_stopping | rec_transcribing | rec_done.

Inductive Report : Type :=
| console_log (msg : string)
| console_error (msg : string)
| alert (msg : string).

(** Parsed inbound event ([JSON.parse(event.data)]). *)
Inductive Inbound : Type :=
| chat_response (content : string) (processing_time : option float)
| other_event (type : string).

(** Outcome of the request to [/speech-to-text-fast]: [fetch] rejects; the
    response is not [ok]; [response.json()] rejects or [data.text] is
    undefined; the body carries [text]. *)
Inductive Transcription : Type :=
| fetch_rejected
| http_error
| bad_body
| body_text (text : string).

Record State : Type := mkState {
  (* useState *)
  messages : list Message;
  isRecording : bool;
  isProcessing : bool;
  inputText : string;
  avgResponseTime : float;
  totalMessages : nat;
  (* useRef and the browser objects behind them *)
  sockets : list Socket;
  wsRef : option nat;
  timers : list Timer;
  recorders : list Phase;
  mediaRecorderRef : option nat;
  (* console, alert and speech output *)
  log : list Report;
  spoken : list string
}.

Definition initial : State :=
  mkState [] false false "" 0%float 0 [] None [] [] None [] [].

Definition setMessages (f : list Message -> list Message) (s : State) : State :=
  mkState (f (messages s)) (isRecording s) (isProcessing s) (inputText s)
    (avgResponseTime s) (totalMessages s) (sockets s) (wsRef s) (timers s)
    (recorders s) (mediaRecorderRef s) (log s) (spoken s).
Definition setIsRecording (b : bool) (s : State) : State :=
  mkState (messages s) b (isProcessing s) (inputText s)
    (avgResponseTime s) (totalMessages s) (sockets s) (wsRef s) (timers s)
    (recorders s) (mediaRecorderRef s) (log s) (spoken s).
Definition setIsProcessing (b : bool) (s : State) : State :=
  mkState (messages s) (isRecording s) b (inputText s)
    (avgResponseTime s) (totalMessages s) (sockets s) (wsRef s) (timers s)
    (recorders s) (mediaRecorderRef s) (log s) (spoken s).
Definition setInputText (t : string) (s : State) : State :=
  mkState (messages s) (isRecording s) (isProcessing s) t
    (avgResponseTime s) (totalMessages s) (sockets s) (wsRef s) (timers s)
    (recorders s) (mediaRecorderRef s) (log s) (spoken s).
Definition setAvgResponseTime (f : float -> float) (s : State) : State :=
  mkState (messages s) (isRecording s) (isProcessing s) (inputText s)
    (f (avgResponseTime s)) (totalMessages s) (sockets s) (wsRef s) (timers s)
    (recorders s) (mediaRecorderRef s) (log s) (spoken s).
Definition setTotalMessages (f : nat -> nat) (s : State) : State :=
  mkState (messages s) (isRecording s) (isProcessing s) (inputText s)
    (avgResponseTime s) (f (totalMessages s)) (sockets s) (wsRef s) (timers s)
    (recorders s) (mediaRecorderRef s) (log s) (spoken s).
Definition set_sockets (f : list Socket -> list Socket) (s : State) : State :=
  mkState (messages s) (isRecording s) (isProcessing s) (inputText s)
    (avgResponseTime s) (totalMessages s) (f (sockets s)) (wsRef s) (timers s)
    (recorders s) (mediaRecorderRef s) (log s) (spoken s).
Definition set_wsRef (r : option nat) (s : State) : State :=
  mkState (messages s) (isRecording s) (isProcessing s) (inputText s)
    (avgResponseTime s) (totalMessages s) (sockets s) r (timers s)
    (recorders s) (mediaRecorderRef s) (log s) (spoken s).
Definition set_timers (f : list Timer -> list Timer) (s : State) : State :=
  mkState (messages s) (isRecording s) (isProcessing s) (inputText s)
    (avgResponseTime s) (totalMessages s) (sockets s) (wsRef s) (f (timers s))
    (recorders s) (mediaRecorderRef s) (log s) (spoken s).
Definition set_recorders (f : list Phase -> list Phase) (s : State) : State :=
  mkState (messages s) (isRecording s) (isProcessing s) (inputText s)
    (avgResponseTime s) (totalMessages s) (sockets s) (wsRef s) (timers s)
    (f (recorders s)) (mediaRecorderRef s) (log s) (spoken s).
Definition set_mediaRecorderRef (r : option nat) (s : State) : State :=
  mkState (messages s) (isRecording s) (isProcessing s) (inputText s)
    (avgResponseTime s) (totalMessages s) (sockets s) (wsRef s) (timers s)
    (recorders s) r (log s) (spoken s).
Definition report (r : Report) (s : State) : State :=
  mkState (messages s) (isRecording s) (isProcessing s) (inputText s)
    (avgResponseTime s) (totalMessages s) (sockets s) (wsRef s) (timers s)
    (recorders s) (mediaRecorderRef s) (log s ++ [r]) (spoken s).
Definition speak (t : string) (s : State) : State :=
  mkState (messages s) (isRecording s) (isProcessing s) (inputText s)
    (avgResponseTime s) (totalMessages s) (sockets s) (wsRef s) (timers s)
    (recorders s) (mediaRecorderRef s) (log s) (spoken s ++ [t]).

Local Open Scope call_scope.

(** *** The socket effect: [useEffect(() => {...}, [totalMessages])] *)

(** [new WebSocket(url)] stored in [wsRef.current].  [n] is [totalMessages]
    as seen by the effect that defined this [connectWebSocket]. *)
Definition connectWebSocket (n : nat) (s : State) : State :=
  set_wsRef (Some (List.length (sockets s)))
    (set_sockets (fun l => l ++ [mkSocket CONNECTING n []]) s).

Definition onopen (s : State) : State :=
  report (console_log "🔌 Conectado ao servidor tempo real") s.

(** [speakText]: the text handed to the speech synthesiser. *)
Definition speakText (text : string) (s : State) : State := speak text s.

(** [wsRef.current.onmessage], in the scope where [totalMessages] is [n].
    The two state setters receive updater functions: [prev] is the current
    state value, while [totalMessages] inside the average is the captured
    [n].  The arithmetic is that of JavaScript numbers. *)
Definition onmessage (n : nat) (data : Inbound) (s : State) : State :=
  match data with
  | chat_response c pt =>
      let newMessage := mkMessage assistant c pt in
      let s := setMessages (fun prev => prev ++ [newMessage]) s in
      let s := setIsProcessing false s in
      let s :=
        match pt with
        | Some latency =>
            if truthy pt then
              let s := setTotalMessages (fun prev => prev + 1) s in
              setAvgResponseTime
                (fun prev =>
                   (prev * float_of_nat n + latency) / (float_of_nat n + 1))%float s
            else s
        | None => s
        end in
      speakText c s
  | other_event _ => s
  end.

Definition RECONNECT_DELAY : nat := 3000.

(** [wsRef.current.onclose]: [setTimeout(connectWebSocket, 3000)]. *)
Definition onclose (n : nat) (s : State) : State :=
  set_timers (fun l => l ++ [mkTimer RECONNECT_DELAY n])
    (report (console_log "🔌 Desconectado do servidor") s).

(** [WebSocket.close()]: a socket that is connecting or open starts its
    closing handshake; the [close] event comes later. *)
Definition ws_close (i : nat) (s : State) : State :=
  set_sockets
    (update_nth i (fun k =>
       match readyState k with
       | CONNECTING | OPEN => mkSocket CLOSING (closure k) (sent k)
       | CLOSING | CLOSED => k
       end)) s.

(** The clean-up returned by the effect. *)
Definition cleanup (s : State) : State :=
  match wsRef s with
  | Some i => ws_close i s
  | None => s
  end.

(** First render: the effect runs with [totalMessages = 0]. *)
Definition mount : State := connectWebSocket 0 initial.

(** After a render in which [totalMessages] differs from its value [before],
    React runs the previous clean-up and then the effect again. *)
Definition rerun_effect (before : nat) (s : State) : State :=
  if totalMessages s =? before then s
  else connectWebSocket (totalMessages s) (cleanup s).

(** *** Sending *)

Definition ws_send (i : nat) (f : Frame) (s : State) : State :=
  set_sockets
    (update_nth i (fun k => mkSocket (readyState k) (closure k) (sent k ++ [f]))) s.

(** [wsRef.current && wsRef.current.readyState === WebSocket.OPEN]. *)
Definition ws_is_open (s : State) : option nat :=
  match wsRef s with
  | Some i =>
      match nth_error (sockets s) i with
      | Some k => match readyState k with OPEN => Some i | _ => None end
      | None => None
      end
  | None => None
  end.

Definition sendMessage (text : string) : M State unit :=
  let userMessage := mkMessage user text None in
  modify (setMessages (fun prev => prev ++ [userMessage])) ;;
  modify (setInputText "") ;;
  modify (setIsProcessing true) ;;
  open <- gets ws_is_open ;;
  match open with
  | Some i => modify (ws_send i (mkFrame "chat" text))
  | None => ret tt
  end.

Definition handleTextSubmit : M State unit :=
  text <- gets inputText ;;
  if nonempty (trim text) then sendMessage (trim text) else ret tt.

(** *** Audio *)

(** [processAudio] up to its [await fetch(...)]. *)
Definition processAudio_begin : M State unit :=
  modify (setIsProcessing true).

(** [processAudio] from the [try] on, once the request has outcome [t]. *)
Definition processAudio_resume (t : Transcription) : M State unit :=
  try_catch
    (match t with
     | fetch_rejected => throw JsError
     | http_error => ret tt
     | bad_body => throw JsError
     | body_text transcribedText =>
         if nonempty (trim transcribedText)
         then sendMessage transcribedText
         else modify (setIsProcessing false)
     end)
    (fun _ =>
       modify (report (console_error "Erro no processamento de áudio:")) ;;
       modify (setIsProcessing false)).

Definition processAudio (t : Transcription) : M State unit :=
  processAudio_begin ;; processAudio_resume t.

(** [MediaRecorder.stop()]: a recording recorder becomes inactive and its
    [stop] event is queued; on an inactive recorder the call raises
    [InvalidStateError]. *)
Definition recorder_stop (i : nat) : M State unit :=
  ph <- gets (fun s => nth_error (recorders s) i) ;;
  match ph with
  | Some rec_recording =>
      modify (set_recorders (update_nth i (fun _ => rec_stopping)))
  | _ => throw JsError
  end.

(** [startRecording]; [granted] tells whether [getUserMedia] resolves with a
    stream.  The new recorder is stored in [mediaRecorderRef.current] and
    started. *)
Definition startRecording (granted : bool) : M State unit :=
  try_catch
    ((if granted then ret tt else throw JsError) ;;
     n <- gets (fun s => List.length (recorders s)) ;;
     modify (set_recorders (fun l => l ++ [rec_recording])) ;;
     modify (set_mediaRecorderRef (Some n)) ;;
     modify (setIsRecording true))
    (fun _ =>
       modify (report (console_error "Erro ao acessar microfone:")) ;;
       modify (report (alert "Erro ao acessar microfone. Verifique as permissões."))).

Definition stopRecording : M State unit :=
  r <- gets mediaRecorderRef ;;
  recording <- gets isRecording ;;
  match r with
  | Some i =>
      if recording
      then recorder_stop i ;; modify (setIsRecording false)
      else ret tt
  | None => ret tt
  end.

(** The recorder's [onstop], after [await processAudio(audioBlob)]:
    [stream.getTracks().forEach(track => track.stop())]. *)
Definition release_stream (i : nat) (s : State) : State :=
  set_recorders (update_nth i (fun _ => rec_done)) s.

Definition is_recording (p : Phase) : bool :=
  match p with rec_recording => true | _ => false end.

(** Number of recorders that are recording. *)
Definition active_recordings (s : State) : nat :=
  List.length (filter is_recording (recorders s)).

(** *** Events *)

(** What can happen to the mounted component.  The three user events go
    through controls that carry [disabled={isProcessing}]; the others come
    from the browser. *)
Inductive Event : Type :=
| ClickMic (granted : bool)     (* onClick={isRecording ? stopRecording : startRecording} *)
| ChangeInput (text : string)   (* onChange of the text field *)
| SubmitForm                    (* onSubmit={handleTextSubmit} *)
| RecorderStop (i : nat)        (* the queued stop event of recorder i *)
| Transcribed (i : nat) (t : Transcription)  (* its request settles *)
| SocketOpen (i : nat)
| SocketMessage (i : nat) (d : Inbound)
| SocketClose (i : nat)
| TimerFires.                   (* the oldest pending setTimeout runs *)

Definition socket_state (i : nat) (s : State) : option ReadyState :=
  option_map readyState (nth_error (sockets s) i).

Definition socket_closure (i : nat) (s : State) : nat :=
  match nth_error (sockets s) i with
  | Some k => closure k
  | None => 0
  end.

Definition set_readyState (i : nat) (r : ReadyState) (s : State) : State :=
  set_sockets (update_nth i (fun k => mkSocket r (closure k) (sent k))) s.

(** The handler of an event, or [None] when the event cannot occur in [s]
    (its control is disabled, or the browser object is not in the state that
    raises it). *)
Definition handle (e : Event) (s : State) : option State :=
  match e with
  | ClickMic granted =>
      if isProcessing s then None
      else if isRecording s then Some (state_of (stopRecording s))
      else Some (state_of (startRecording granted s))
  | ChangeInput text =>
      if isProcessing s then None else Some (setInputText text s)
  | SubmitForm =>
      if isProcessing s then None else Some (state_of (handleTextSubmit s))
  | RecorderStop i =>
      match nth_error (recorders s) i with
      | Some rec_stopping =>
          Some (state_of (processAudio_begin
                            (set_recorders (update_nth i (fun _ => rec_transcribing)) s)))
      | _ => None
      end
  | Transcribed i t =>
      match nth_error (recorders s) i with
      | Some rec_transcribing =>
          Some (release_stream i (state_of (processAudio_resume t s)))
      | _ => None
      end
  | SocketOpen i =>
      match socket_state i s with
      | Some CONNECTING => Some (onopen (set_readyState i OPEN s))
      | _ => None
      end
  | SocketMessage i d =>
      match socket_state i s with
      | Some OPEN => Some (onmessage (socket_closure i s) d s)
      | _ => None
      end
  | SocketClose i =>
      match socket_state i s with
      | Some CLOSED | None => None
      | Some _ => Some (onclose (socket_closure i s) (set_readyState i CLOSED s))
      end
  | TimerFires =>
      match timers s with
      | t :: rest => Some (connectWebSocket (timer_closure t) (set_timers (fun _ => rest) s))
      | [] => None
      end
  end.

(** One event followed by the render it causes. *)
Definition step (e : Event) (s : State) : option State :=
  option_map (rerun_effect (totalMessages s)) (handle e s).

Fixpoint run (es : list Event) (s : State) : option State :=
  match es with
  | [] => Some s
  | e :: rest =>
      match step e s with
      | Some s' => run rest s'
      | None => None
      end
  end.

(** Frames handed to any socket, and replies received. *)
Definition dispatched (s : State) : nat :=
  list_sum (map (fun k => List.length (sent k)) (sockets s)).

Definition answered (s : State) : nat :=
  List.length (filter (fun m => match role m with assistant => true | user => false end)
                 (messages s)).

(** Turns sent over the channel whose reply has not arrived. *)
Definition outstanding (s : State) : nat := dispatched s - answered s.

End RealTimeChat.

(** ** hooks/useAudioPlayer.ts *)

Module AudioPlayer.

Local Open Scope call_scope.

(** An [HTMLAudioElement] made by [new Audio(audioUrl)]: the blob behind its
    object URL, whether it is paused, its playback position, and whether the
    object URL has been revoked. *)
Record Audio : Type := mkAudio {
  blob : nat;
  paused : bool;
  position : Q;
  revoked : bool
}.

Record State : Type := mkState {
  isPlaying : bool;
  currentTime : Q;
  duration : Q;
  audioRef : option nat;
  elements : list Audio;
  errors : list string
}.

Definition initial : State := mkState false 0%Q 0%Q None [] [].

Definition setIsPlaying (b : bool) (s : State) : State :=
  mkState b (currentTime s) (duration s) (audioRef s) (elements s) (errors s).
Definition setCurrentTime (t : Q) (s : State) : State :=
  mkState (isPlaying s) t (duration s) (audioRef s) (elements s) (errors s).
Definition setDuration (d : Q) (s : State) : State :=
  mkState (isPlaying s) (currentTime s) d (audioRef s) (elements s) (errors s).
Definition set_audioRef (r : option nat) (s : State) : State :=
  mkState (isPlaying s) (currentTime s) (duration s) r (elements s) (errors s).
Definition set_elements (f : list Audio -> list Audio) (s : State) : State :=
  mkState (isPlaying s) (currentTime s) (duration s) (audioRef s) (f (elements s)) (errors s).
Definition console_error (msg : string) (s : State) : State :=
  mkState (isPlaying s) (currentTime s) (duration s) (audioRef s) (elements s)
    (errors s ++ [msg]).

Definition update_element (i : nat) (f : Audio -> Audio) (s : State) : State :=
  set_elements (update_nth i f) s.

(** [audio.pause()], [audio.play()] resolving, [audio.currentTime = t] and
    [URL.revokeObjectURL(audioUrl)]. *)
Definition pause (i : nat) : State -> State :=
  update_element i (fun a => mkAudio (blob a) true (position a) (revoked a)).
Definition start (i : nat) : State -> State :=
  update_element i (fun a => mkAudio (blob a) false (position a) (revoked a)).
Definition seek (i : nat) (t : Q) : State -> State :=
  update_element i (fun a => mkAudio (blob a) (paused a) t (revoked a)).
Definition revokeObjectURL (i : nat) : State -> State :=
  update_element i (fun a => mkAudio (blob a) (paused a) (position a) true).

(** [playAudio(audioBlob)]; [accepted] tells whether [audio.play()]
    resolves. *)
Definition playAudio (audioBlob : nat) (accepted : bool) : M State unit :=
  try_catch
    (current <- gets audioRef ;;
     (* Parar audio atual se estiver tocando *)
     match current with
     | Some i => modify (pause i) ;; modify (set_audioRef None)
     | None => ret tt
     end ;;
     n <- gets (fun s => List.length (elements s)) ;;
     modify (set_elements (fun l => l ++ [mkAudio audioBlob true 0%Q false])) ;;
     modify (set_audioRef (Some n)) ;;
     modify (setIsPlaying true) ;;
     if accepted then modify (start n) else throw JsError)
    (fun _ =>
       modify (console_error "Erro ao reproduzir áudio:") ;;
       modify (setIsPlaying false)).

(** The listeners [playAudio] adds to element [i]. *)
Definition on_loadedmetadata (d : Q) (s : State) : State := setDuration d s.
Definition on_timeupdate (t : Q) (s : State) : State := setCurrentTime t s.
Definition on_ended (i : nat) (s : State) : State :=
  revokeObjectURL i (setCurrentTime 0%Q (setIsPlaying false s)).
Definition on_error (i : nat) (s : State) : State :=
  revokeObjectURL i (setIsPlaying false (console_error "Erro ao reproduzir áudio:" s)).

Definition pauseAudio (s : State) : State :=
  match audioRef s with
  | Some i => setIsPlaying false (pause i s)
  | None => s
  end.

Definition stopAudio (s : State) : State :=
  match audioRef s with
  | Some i => setCurrentTime 0%Q (setIsPlaying false (seek i 0%Q (pause i s)))
  | None => s
  end.

Definition seekTo (time : Q) (s : State) : State :=
  match audioRef s with
  | Some i => setCurrentTime time (seek i time s)
  | None => s
  end.

(** Artifacts of the elements that [play()] started and nothing paused. *)
Definition playing (s : State) : list nat :=
  map blob (filter (fun a => negb (paused a)) (elements s)).

End AudioPlayer.

(** ** The AdvancedVoiceChat component *)

Module AdvancedVoiceChat.

Local Open Scope call_scope.

(** [interface ModelInfo]. *)
Record Performance : Type := mkPerformance {
  response_time : Q;
  tokens_per_second : Q
}.

Record ModelInfo : Type := mkModelInfo {
  name : string;
  size : string;
  ram_usage : string;
  speed_rating : nat;
  quality_rating : nat;
  best_for : list string;
  available : bool;
  performance : option Performance
}.

(** [interface ConversationStats]. *)
Record ConversationStats : Type := mkStats {
  model_used : string;
  stats_response_time : Q;
  tokens_generated : nat;
  conversation_length : nat
}.

(** [interface Message], without the clock readings [id] and [timestamp]. *)
Record Message : Type := mkMessage {
  text : string;
  isUser : bool;
  stats : option ConversationStats;
  modelInfo : option ModelInfo
}.

Inductive ConversationMode : Type := speed | balanced | quality.
Inductive ConnectionStatus : Type := connecting | connected | disconnected.
Inductive ReadyState : Type := CONNECTING | OPEN | CLOSING | CLOSED.

(** Body of the POST to [/chat]. *)
Record ChatRequest : Type := mkChatRequest {
  message : string;
  conversation_type : ConversationMode;
  model_preference : option string
}.

Inductive Report : Type :=
| console_error (msg : string)
| alert (msg : string).

(** Inbound socket data after [JSON.parse]. *)
Inductive Inbound : Type :=
| ws_connected (current_model : option string)
| ws_model_switched (model : string)
| ws_other.

(** Outcome of the POST to [/transcribe]: the request or [json()] rejects;
    the body has no [text]; the body carries [text]. *)
Inductive Transcription : Type :=
| transcribe_rejected
| transcribe_no_text
| transcribe_text (t : string).

(** Outcome of the POST to [/chat]: the request or [json()] rejects; the
    body carries [response] and possibly [stats]. *)
Inductive ChatOutcome : Type :=
| chat_rejected
| chat_body (response : string) (st : option ConversationStats) (info : option ModelInfo).

Record State : Type := mkState {
  messages : list Message;
  isRecording : bool;
  isProcessing : bool;
  inputText : string;
  currentModel : string;
  conversationMode : ConversationMode;
  autoModelSwitch : bool;
  wsConnection : option nat;
  connectionStatus : ConnectionStatus;
  mediaRecorder : option nat;
  audioChunks : list nat;
  (* browser objects *)
  sockets : list ReadyState;
  timers : list nat;
  recorders : list bool;          (* true while recording *)
  requests : list ChatRequest;
  log : list Report
}.

Definition initial : State :=
  mkState [] false false "" "gemma2:2b" balanced true None disconnected None []
    [] [] [] [] [].

Definition setMessages (f : list Message -> list Message) (s : State) : State :=
  mkState (f (messages s)) (isRecording s) (isProcessing s) (inputText s)
    (currentModel s) (conversationMode s) (autoModelSwitch s) (wsConnection s)
    (connectionStatus s) (mediaRecorder s) (audioChunks s)
    (sockets s) (timers s) (recorders s) (requests s) (log s).
Definition setIsRecording (b : bool) (s : State) : State :=
  mkState (messages s) b (isProcessing s) (inputText s)
    (currentModel s) (conversationMode s) (autoModelSwitch s) (wsConnection s)
    (connectionStatus s) (mediaRecorder s) (audioChunks s)
    (sockets s) (timers s) (recorders s) (requests s) (log s).
Definition setIsProcessing (b : bool) (s : State) : State :=
  mkState (messages s) (isRecording s) b (inputText s)
    (currentModel s) (conversationMode s) (autoModelSwitch s) (wsConnection s)
    (connectionStatus s) (mediaRecorder s) (audioChunks s)
    (sockets s) (timers s) (recorders s) (requests s) (log s).
Definition setInputText (t : string) (s : State) : State :=
  mkState (messages s) (isRecording s) (isProcessing s) t
    (currentModel s) (conversationMode s) (autoModelSwitch s) (wsConnection s)
    (connectionStatus s) (mediaRecorder s) (audioChunks s)
    (sockets s) (timers s) (recorders s) (requests s) (log s).
Definition setCurrentModel (m : string) (s : State) : State :=
  mkState (messages s) (isRecording s) (isProcessing s) (inputText s)
    m (conversationMode s) (autoModelSwitch s) (wsConnection s)
    (connectionStatus s) (mediaRecorder s) (audioChunks s)
    (sockets s) (timers s) (recorders s) (requests s) (log s).
Definition setConversationMode (m : ConversationMode) (s : State) : State :=
  mkState (messages s) (isRecording s) (isProcessing s) (inputText s)
    (currentModel s) m (autoModelSwitch s) (wsConnection s)
    (connectionStatus s) (mediaRecorder s) (audioChunks s)
    (sockets s) (timers s) (recorders s) (requests s) (log s).
Definition setAutoModelSwitch (b : bool) (s : State) : State :=
  mkState (messages s) (isRecording s) (isProcessing s) (inputText s)
    (currentModel s) (conversationMode s) b (wsConnection s)
    (connectionStatus s) (mediaRecorder s) (audioChunks s)
    (sockets s) (timers s) (recorders s) (requests s) (log s).
Definition setWsConnection (w : option nat) (s : State) : State :=
  mkState (messages s) (isRecording s) (isProcessing s) (inputText s)
    (currentModel s) (conversationMode s) (autoModelSwitch s) w
    (connectionStatus s) (mediaRecorder s) (audioChunks s)
    (sockets s) (timers s) (recorders s) (requests s) (log s).
Definition setConnectionStatus (c : ConnectionStatus) (s : State) : State :=
  mkState (messages s) (isRecording s) (isProcessing s) (inputText s)
    (currentModel s) (conversationMode s) (autoModelSwitch s) (wsConnection s)
    c (mediaRecorder s) (audioChunks s)
    (sockets s) (timers s) (recorders s) (requests s) (log s).
Definition setMediaRecorder (r : option nat) (s : State) : State :=
  mkState (messages s) (isRecording s) (isProcessing s) (inputText s)
    (currentModel s) (conversationMode s) (autoModelSwitch s) (wsConnection s)
    (connectionStatus s) r (audioChunks s)
    (sockets s) (timers s) (recorders s) (requests s) (log s).
Definition setAudioChunks (f : list nat -> list nat) (s : State) : State :=
  mkState (messages s) (isRecording s) (isProcessing s) (inputText s)
    (currentModel s) (conversationMode s) (autoModelSwitch s) (wsConnection s)
    (connectionStatus s) (mediaRecorder s) (f (audioChunks s))
    (sockets s) (timers s) (recorders s) (requests s) (log s).
Definition set_sockets (f : list ReadyState -> list ReadyState) (s : State) : State :=
  mkState (messages s) (isRecording s) (isProcessing s) (inputText s)
    (currentModel s) (conversationMode s) (autoModelSwitch s) (wsConnection s)
    (connectionStatus s) (mediaRecorder s) (audioChunks s)
    (f (sockets s)) (timers s) (recorders s) (requests s) (log s).
Definition set_timers (f : list nat -> list nat) (s : State) : State :=
  mkState (messages s) (isRecording s) (isProcessing s) (inputText s)
    (currentModel s) (conversationMode s) (autoModelSwitch s) (wsConnection s)
    (connectionStatus s) (mediaRecorder s) (audioChunks s)
    (sockets s) (f (timers s)) (recorders s) (requests s) (log s).
Definition set_recorders (f : list bool -> list bool) (s : State) : State :=
  mkState (messages s) (isRecording s) (isProcessing s) (inputText s)
    (currentModel s) (conversationMode s) (autoModelSwitch s) (wsConnection s)
    (connectionStatus s) (mediaRecorder s) (audioChunks s)
    (sockets s) (timers s) (f (recorders s)) (requests s) (log s).
Definition post_chat (r : ChatRequest) (s : State) : State :=
  mkState (messages s) (isRecording s) (isProcessing s) (inputText s)
    (currentModel s) (conversationMode s) (autoModelSwitch s) (wsConnection s)
    (connectionStatus s) (mediaRecorder s) (audioChunks s)
    (sockets s) (timers s) (recorders s) (requests s ++ [r]) (log s).
Definition report (r : Report) (s : State) : State :=
  mkState (messages s) (isRecording s) (isProcessing s) (inputText s)
    (currentModel s) (conversationMode s) (autoModelSwitch s) (wsConnection s)
    (connectionStatus s) (mediaRecorder s) (audioChunks s)
    (sockets s) (timers s) (recorders s) (requests s) (log s ++ [r]).

Definition RECONNECT_DELAY : nat := 3000.

(** *** Connection *)

(** [connectWebSocket]; [constructed] tells whether [new WebSocket(url)]
    returns.  The constructor raises only when the URL is refused, which the
    fixed URL of the source is not; [false] is there for the [catch] branch.
    The handlers below are the ones installed on the new socket. *)
Definition connectWebSocket (constructed : bool) : M State unit :=
  try_catch
    (modify (setConnectionStatus connecting) ;;
     if constructed
     then modify (set_sockets (fun l => l ++ [CONNECTING]))
     else throw JsError)
    (fun _ =>
       modify (report (console_error "Erro conectando WebSocket:")) ;;
       modify (setConnectionStatus disconnected)).

Definition onopen (ws : nat) (s : State) : State :=
  setWsConnection (Some ws) (setConnectionStatus connected s).

Definition handleWebSocketMessage (data : Inbound) (s : State) : State :=
  match data with
  | ws_connected (Some m) => if nonempty m then setCurrentModel m s else s
  | ws_connected None => s
  | ws_model_switched m => setCurrentModel m s
  | ws_other => s
  end.

Definition onmessage (data : Inbound) (s : State) : State :=
  handleWebSocketMessage data s.

(** [ws.onclose]: [setTimeout(connectWebSocket, 3000)]. *)
Definition onclose (s : State) : State :=
  set_timers (fun l => l ++ [RECONNECT_DELAY])
    (setWsConnection None (setConnectionStatus disconnected s)).

Definition onerror (s : State) : State :=
  setConnectionStatus disconnected (report (console_error "WebSocket error:") s).

(** [WebSocket.close()]. *)
Definition ws_close (i : nat) (s : State) : State :=
  set_sockets
    (update_nth i (fun r =>
       match r with
       | CONNECTING | OPEN => CLOSING
       | CLOSING | CLOSED => r
       end)) s.

(** The clean-up of the mount effect.  [seen] is [wsConnection] in the
    scope of the render that ran the effect. *)
Definition cleanup (seen : option nat) (s : State) : State :=
  match seen with
  | Some i => ws_close i s
  | None => s
  end.

(** The effect has an empty dependency list: it runs once, on the first
    render, hence captures the initial [wsConnection]. *)
Definition unmount (s : State) : State := cleanup (wsConnection initial) s.

Definition mount : State := state_of (connectWebSocket true initial).

Inductive Event : Type :=
| SocketOpen (i : nat)
| SocketMessage (i : nat) (d : Inbound)
| SocketError (i : nat)
| SocketClose (i : nat)
| TimerFires
| Teardown (seen : option nat).

Definition handle (e : Event) (s : State) : option State :=
  match e with
  | SocketOpen i =>
      match nth_error (sockets s) i with
      | Some CONNECTING => Some (onopen i (set_sockets (update_nth i (fun _ => OPEN)) s))
      | _ => None
      end
  | SocketMessage i d =>
      match nth_error (sockets s) i with
      | Some OPEN => Some (onmessage d s)
      | _ => None
      end
  | SocketError i =>
      match nth_error (sockets s) i with
      | Some CLOSED | None => None
      | Some _ => Some (onerror s)
      end
  | SocketClose i =>
      match nth_error (sockets s) i with
      | Some CLOSED | None => None
      | Some _ => Some (onclose (set_sockets (update_nth i (fun _ => CLOSED)) s))
      end
  | TimerFires =>
      match timers s with
      | _ :: rest => Some (state_of (connectWebSocket true (set_timers (fun _ => rest) s)))
      | [] => None
      end
  | Teardown seen => Some (cleanup seen s)
  end.

Fixpoint run (es : list Event) (s : State) : option State :=
  match es with
  | [] => Some s
  | e :: rest =>
      match handle e s with
      | Some s' => run rest s'
      | None => None
      end
  end.

(** The connection status after each event of a run. *)
Fixpoint statuses (es : list Event) (s : State) : list ConnectionStatus :=
  match es with
  | [] => []
  | e :: rest =>
      match handle e s with
      | Some s' => connectionStatus s' :: statuses rest s'
      | None => []
      end
  end.

(** *** Recording and the turn *)

Definition recorder_stop (i : nat) : M State unit :=
  r <- gets (fun s => nth_error (recorders s) i) ;;
  match r with
  | Some true => modify (set_recorders (update_nth i (fun _ => false)))
  | _ => throw JsError
  end.

Definition startRecording (granted : bool) : M State unit :=
  try_catch
    ((if granted then ret tt else throw JsError) ;;
     n <- gets (fun s => List.length (recorders s)) ;;
     modify (set_recorders (fun l => l ++ [false])) ;;
     modify (setMediaRecorder (Some n)) ;;
     modify (setAudioChunks (fun _ => [])) ;;
     modify (set_recorders (update_nth n (fun _ => true))) ;;
     modify (setIsRecording true))
    (fun _ =>
       modify (report (console_error "Erro ao iniciar gravação:")) ;;
       modify (report (alert "Erro ao acessar microfone"))).

Definition stopRecording : M State unit :=
  r <- gets mediaRecorder ;;
  recording <- gets isRecording ;;
  match r with
  | Some i =>
      if recording
      then recorder_stop i ;; modify (setIsRecording false)
      else ret tt
  | None => ret tt
  end.

Definition active_recordings (s : State) : nat :=
  List.length (filter (fun b : bool => b) (recorders s)).

(** [recorder.ondataavailable]; [size_positive] is [event.data.size > 0]. *)
Definition ondataavailable (size_positive : bool) (blob : nat) (s : State) : State :=
  if size_positive then setAudioChunks (fun prev => prev ++ [blob]) s else s.

(** What [sendMessage] reads from its scope: [conversationMode],
    [autoModelSwitch] and [currentModel] of the render that defined the
    closure.  A call from the controls runs the closure of the latest
    render; [recorder.onstop] runs the [processAudio], hence the
    [sendMessage], of the render in which [startRecording] was called. *)
Record Render : Type := mkRender {
  seen_mode : ConversationMode;
  seen_auto : bool;
  seen_model : string
}.

(** The scope of the render of state [s]. *)
Definition render (s : State) : Render :=
  mkRender (conversationMode s) (autoModelSwitch s) (currentModel s).

(** [autoModelSwitch ? null : currentModel]. *)
Definition preference (seen : Render) : option string :=
  if seen_auto seen then None else Some (seen_model seen).

(** [sendMessage(text)] of the render [seen]; [c] is the outcome of the POST
    to [/chat].  The state setters act on the state at the call. *)
Definition sendMessage (seen : Render) (text : string) (c : ChatOutcome)
  : M State unit :=
  if negb (nonempty (trim text)) then ret tt
  else
    let userMessage := mkMessage text true None None in
    modify (setMessages (fun prev => prev ++ [userMessage])) ;;
    modify (setInputText "") ;;
    modify (setIsProcessing true) ;;
    try_finally
      (try_catch
         (modify (post_chat (mkChatRequest text (seen_mode seen) (preference seen))) ;;
          match c with
          | chat_rejected => throw JsError
          | chat_body response st info =>
              let assistantMessage := mkMessage response false st info in
              modify (setMessages (fun prev => prev ++ [assistantMessage])) ;;
              match st with
              | Some st => modify (setCurrentModel (model_used st))
              | None => throw JsError
              end
          end)
         (fun _ =>
            modify (report (console_error "Erro enviando mensagem:")) ;;
            let errorMessage :=
              mkMessage "Desculpe, houve um erro. Tente novamente." false None None in
            modify (setMessages (fun prev => prev ++ [errorMessage]))))
      (modify (setIsProcessing false)).

(** [processAudio()]; [chunks] is [audioChunks] in the scope of the render
    that defined this closure and [seen] what its [sendMessage] reads there,
    [t] the outcome of the transcription request and [c] that of the chat
    request [sendMessage] makes. *)
Definition processAudio (chunks : list nat) (seen : Render) (t : Transcription)
  (c : ChatOutcome) : M State unit :=
  match chunks with
  | [] => ret tt
  | _ :: _ =>
      modify (setIsProcessing true) ;;
      try_finally
        (try_catch
           (match t with
            | transcribe_rejected => throw JsError
            | transcribe_no_text => throw JsError
            | transcribe_text txt =>
                if nonempty (trim txt) then sendMessage seen (trim txt) c else ret tt
            end)
           (fun _ =>
              modify (report (console_error "Erro processando áudio:")) ;;
              modify (report (alert "Erro ao processar áudio"))))
        (modify (setIsProcessing false) ;; modify (setAudioChunks (fun _ => [])))
  end.

(** [recorder.onstop] of the recorder made by [startRecording] in the
    render of state [at_start]: it calls the [processAudio] of that render.
    (The tracks it then stops are not part of this state.) *)
Definition recorder_onstop (at_start : State) (t : Transcription) (c : ChatOutcome)
  : M State unit :=
  processAudio (audioChunks at_start) (render at_start) t c.

End AdvancedVoiceChat.

(** ** Model selection policy *)

(** The front end only tells the back end whether a model is pinned (the
    [model_preference] field of [AdvancedVoiceChat.sendMessage]); the choice
    itself is made by the back end, whose code is not among the sources.  The
    policy below follows section 4.5 of the specification. *)

Module ModelSelection.

Import AdvancedVoiceChat.

Section Policy.

(** The two tie-break keys of the specification.  [ModelInfo] carries
    [size] and [ram_usage] as text and an optional [performance]; how the
    resource cost class and the recently observed tokens per second are
    read off them is left open, and the policy holds for any reading. *)
Variable cost_class : ModelInfo -> nat.
Variable throughput : ModelInfo -> Q.

(** Modelled from the spec: the rating a mode maximises (the back-end
    policy is missing from the sources): the speed rating under Speed, the
    quality rating under Quality, their sum under Balanced. *)
Definition rating (mode : ConversationMode) (m : ModelInfo) : nat :=
  match mode with
  | speed => speed_rating m
  | quality => quality_rating m
  | balanced => speed_rating m + quality_rating m
  end.

(** Modelled from the spec: the preference order of the missing back-end
    policy.  [better mode a b] holds when [a] is strictly preferred to
    [b]: higher rating, then higher tokens per second, then lower resource
    cost class. *)
Definition better (mode : ConversationMode) (a b : ModelInfo) : bool :=
  match Nat.compare (rating mode a) (rating mode b) with
  | Gt => true
  | Lt => false
  | Eq =>
      match Qcompare (throughput a) (throughput b) with
      | Gt => true
      | Lt => false
      | Eq => cost_class a <? cost_class b
      end
  end.

(** Modelled from the spec: the most preferred model of [cur :: rest] (the
    missing back-end policy); among fully tied models the earliest listed
    is kept. *)
Fixpoint best (mode : ConversationMode) (cur : ModelInfo) (rest : list ModelInfo)
  : ModelInfo :=
  match rest with
  | [] => cur
  | m :: r => best mode (if better mode m cur then m else cur) r
  end.

(** Modelled from the spec: automatic selection of the missing back-end
    policy.  Unavailable models are left out; with no available model the
    selection fails with [NoModelAvailable]. *)
Definition select_auto (mode : ConversationMode) (models : list ModelInfo)
  : Error + ModelInfo :=
  match filter available models with
  | [] => inl NoModelAvailable
  | m :: rest => inr (best mode m rest)
  end.

(** Modelled from the spec: selection with an optional manual pin (the
    missing back-end policy).  A pinned identifier is returned whatever the
    mode and the ratings; a pinned model that is not available is
    [NoModelAvailable], as the design notes prescribe. *)
Definition select (pin : option string) (mode : ConversationMode)
    (models : list ModelInfo) : Error + ModelInfo :=
  match pin with
  | Some id =>
      match find (fun m => (name m =? id)%string && available m) models with
      | Some m => inr m
      | None => inl NoModelAvailable
      end
  | None => select_auto mode models
  end.

(** The lexicographic reading of "[m] is not preferred to [r]". *)
Definition not_above (mode : ConversationMode) (m r : ModelInfo) : Prop :=
  rating mode m <= rating mode r /\
  (rating mode m = rating mode r ->
     (throughput m <= throughput r)%Q /\
     ((throughput m == throughput r)%Q -> cost_class r <= cost_class m)).

End Policy.

(** The pin as the front end holds it: [autoModelSwitch] off pins
    [currentModel]; this is the [model_preference] of the chat request. *)
Definition pin_of (s : State) : option string :=
  if autoModelSwitch s then None else Some (currentModel s).

End ModelSelection.

(** ** Runs used in the properties *)

Module Stats.

Import RealTimeChat.

(** A reply handled by the handler of the latest render.  The socket effect
    lists [totalMessages] as its dependency, so the render that follows a
    change of the count installs a handler whose captured count is the
    current one. *)
Definition deliver (d : Inbound) (s : State) : State :=
  onmessage (totalMessages s) d s.

(** [n] completed turns with latencies [lats], delivered in order. *)
Definition after_turns (lats : list float) (s : State) : State :=
  fold_left (fun s l => deliver (chat_response "ok" (Some l)) s) lats s.

(** The same replies as events of the mounted component: each reply
    arrives over the socket that the effect opened after the previous
    counted reply ([k] is the position of the first of these sockets), once
    that socket is open. *)
Fixpoint turn_events (k : nat) (lats : list float) : list Event :=
  match lats with
  | [] => []
  | l :: rest =>
      SocketOpen k :: SocketMessage k (chat_response "ok" (Some l))
      :: turn_events (k + 1) rest
  end.

(** The update of the average in [onmessage], for the turn that follows
    [n] counted ones: [(prev * totalMessages + data.processing_time) /
    (totalMessages + 1)] on JavaScript numbers. *)
Definition update (n : nat) (prev latency : float) : float :=
  ((prev * float_of_nat n + latency) / (float_of_nat n + 1))%float.

(** The update applied to the replies [lats] in turn, from the average
    [avg] of [n] turns. *)
Fixpoint recurrence (n : nat) (avg : float) (lats : list float) : float :=
  match lats with
  | [] => avg
  | l :: rest => recurrence (n + 1) (update n avg l) rest
  end.

(** The rational a latency stands for. *)
Definition value (x : float) : Q :=
  match exact x with
  | Some v => v
  | None => 0%Q
  end.

Definition Qsum (l : list Q) : Q := fold_right Qplus 0%Q l.

(** Arithmetic mean of a list of latencies, in exact arithmetic. *)
Definition mean (l : list Q) : Q := (Qsum l / Qnat (List.length l))%Q.

(** An update does not round when its binary64 result is the rational
    [(prev * n + latency) / (n + 1)] itself. *)
Definition update_exact (n : nat) (prev latency : float) : bool :=
  match exact prev, exact latency, exact (update n prev latency) with
  | Some a, Some l, Some r => Qeq_bool r ((a * Qnat n + l) / Qnat (n + 1))
  | _, _, _ => false
  end.

(** No update rounds along the replies [lats]. *)
Fixpoint no_rounding (n : nat) (avg : float) (lats : list float) : bool :=
  match lats with
  | [] => true
  | l :: rest => update_exact n avg l && no_rounding (n + 1) (update n avg l) rest
  end.

(** Latencies used in the examples: the binary64 numbers that the decimal
    numerals 0.8, 0.1, 0.2 and 0.15 denote, and the number printed
    0.15000000000000002. *)
Definition f0_8 : float := 0x1.999999999999ap-1%float.
Definition f0_1 : float := 0x1.999999999999ap-4%float.
Definition f0_2 : float := 0x1.999999999999ap-3%float.
Definition f0_15 : float := 0x1.3333333333333p-3%float.
Definition f0_15000000000000002 : float := 0x1.3333333333334p-3%float.

End Stats.

Module Scenario.

Import RealTimeChat.

(** The real-time chat once its first socket has opened. *)
Definition online : State := onopen (set_readyState 0 OPEN mount).

(** The learner types "hi", records and stops; submits the typed text before
    the recorder's stop event is handled; the recording is then transcribed
    as "hello". *)
Definition overlapping_turns : list Event :=
  [ChangeInput "hi"; ClickMic true; ClickMic true; SubmitForm;
   RecorderStop 0; Transcribed 0 (body_text "hello")].

(** Two models for the selection scenarios: [fast] (speed 5, quality 2) and
    [deep] (speed 2, quality 5), both available and observed at 40 tokens
    per second. *)
Definition fast : AdvancedVoiceChat.ModelInfo :=
  AdvancedVoiceChat.mkModelInfo "gemma2:2b" "1.6GB" "2GB" 5 2 ["chat"] true
    (Some (AdvancedVoiceChat.mkPerformance (1 # 2) 40)).

Definition deep : AdvancedVoiceChat.ModelInfo :=
  AdvancedVoiceChat.mkModelInfo "llama3:8b" "4.7GB" "8GB" 2 5 ["grammar"] true
    (Some (AdvancedVoiceChat.mkPerformance 2 40)).

(** One reading of the tie-break keys: the cost class is the first digit of
    [ram_usage], the throughput the observed tokens per second (zero when
    nothing was observed). *)
Definition ram_class (m : AdvancedVoiceChat.ModelInfo) : nat :=
  match AdvancedVoiceChat.ram_usage m with
  | String c _ => nat_of_ascii c - 48
  | EmptyString => 0
  end.

Definition observed_tps (m : AdvancedVoiceChat.ModelInfo) : Q :=
  match AdvancedVoiceChat.performance m with
  | Some p => AdvancedVoiceChat.tokens_per_second p
  | None => 0%Q
  end.

(** Whether a transcription outcome leaves the pipeline without text: the
    request failed, or the text is empty or white space only. *)
Definition no_transcript (t : Transcription) : bool :=
  match t with
  | body_text x => negb (nonempty (trim x))
  | fetch_rejected | http_error | bad_body => true
  end.

(** The same for the outcome type of [AdvancedVoiceChat]. *)
Definition no_transcript_avc (t : AdvancedVoiceChat.Transcription) : bool :=
  match t with
  | AdvancedVoiceChat.transcribe_text x => negb (nonempty (trim x))
  | _ => true
  end.

End Scenario.

(** ** Further parts of the components *)

(** *** Voice choice of [speakText] (RealTimeChat.tsx) *)

Module Speech.

(** The two fields of a [SpeechSynthesisVoice] that [speakText] reads. *)
Record Voice : Type := mkVoice {
  lang : string;
  voice_name : string
}.

(** The [SpeechSynthesisUtterance] that [speakText] builds. *)
Record Utterance : Type := mkUtterance {
  utterance_text : string;
  rate : Q;
  pitch : Q;
  volume : Q;
  voice : option Voice
}.

(** [s.includes(sub)]. *)
Fixpoint includes (s sub : string) : bool :=
  String.prefix sub s ||
  match s with
  | EmptyString => false
  | String _ r => includes r sub
  end.

(** [voices.find(female English) || voices.find(English)]. *)
Definition englishVoice (voices : list Voice) : option Voice :=
  match find (fun voice => includes (lang voice) "en"
                           && includes (voice_name voice) "Female") voices with
  | Some v => Some v
  | None => find (fun voice => includes (lang voice) "en") voices
  end.

(** [speakText(text)]: [supported] is ['speechSynthesis' in window],
    [voices] is [speechSynthesis.getVoices()]; the result is the utterance
    given to [speechSynthesis.speak], if any.  The voice of the utterance
    stays unset when no English voice is found. *)
Definition speakText (supported : bool) (voices : list Voice) (text : string)
  : option Utterance :=
  if supported
  then Some (mkUtterance text 1 1 (8 # 10) (englishVoice voices))
  else None.

End Speech.

(** *** Sequences of calls and events of the audio player hook *)

Module PlayerRuns.

Import AudioPlayer.

(** The four operations the hook returns and the four listeners
    [playAudio] installs. *)
Inductive Op : Type :=
| Play (audioBlob : nat) (accepted : bool)
| Pause
| Stop
| Seek (time : Q)
| LoadedMetadata (d : Q)
| TimeUpdate (t : Q)
| Ended (i : nat)
| Failed (i : nat).

Definition apply (o : Op) (s : State) : State :=
  match o with
  | Play b accepted => state_of (playAudio b accepted s)
  | Pause => pauseAudio s
  | Stop => stopAudio s
  | Seek t => seekTo t s
  | LoadedMetadata d => on_loadedmetadata d s
  | TimeUpdate t => on_timeupdate t s
  | Ended i => on_ended i s
  | Failed i => on_error i s
  end.

Definition run_ops (ops : list Op) (s : State) : State :=
  fold_left (fun s o => apply o s) ops s.

(** Only the element held in [audioRef] can be playing, and that element is
    the one created last. *)
Definition only_current_plays (s : State) : Prop :=
  forall i a, nth_error (elements s) i = Some a -> paused a = false ->
              audioRef s = Some i /\ i + 1 = List.length (elements s).

End PlayerRuns.

(** *** Settings of AdvancedVoiceChat *)

Module Settings.

Import AdvancedVoiceChat.

Local Open Scope call_scope.

(** Outcome of a [fetch] whose body is read only when [response.ok]: the
    request rejects; the response has an error status; the response is ok
    and [json()] rejects; the response is ok with a parsed body. *)
Inductive Http (A : Type) : Type :=
| rejected
| error_status
| ok_unreadable
| ok_body (a : A).

Arguments rejected {A}.
Arguments error_status {A}.
Arguments ok_unreadable {A}.
Arguments ok_body {A} a.

(** [switchModel(modelName)]; the body carries [current_model]. *)
Definition switchModel (modelName : string) (r : Http string) : M State unit :=
  try_catch
    (match r with
     | rejected => throw JsError
     | error_status => ret tt
     | ok_unreadable => throw JsError
     | ok_body current_model => modify (setCurrentModel current_model)
     end)
    (fun _ => modify (report (console_error "Erro ao trocar modelo:"))).

(** [updateConversationMode(mode)]; the body is not read. *)
Definition updateConversationMode (mode : ConversationMode) (r : Http unit)
  : M State unit :=
  try_catch
    (match r with
     | rejected => throw JsError
     | error_status => ret tt
     | ok_unreadable | ok_body _ => modify (setConversationMode mode)
     end)
    (fun _ => modify (report (console_error "Erro ao atualizar configuração:"))).

(** [clearHistory()]: the response of the DELETE is not inspected. *)
Definition clearHistory (r : Http unit) : M State unit :=
  try_catch
    (match r with
     | rejected => throw JsError
     | error_status | ok_unreadable | ok_body _ => modify (setMessages (fun _ => []))
     end)
    (fun _ => modify (report (console_error "Erro ao limpar histórico:"))).

(** The socket in [wsConnection] is open or closing, and the status is
    [connected] only while there is such a socket. *)
Definition indicator_sound (s : State) : Prop :=
  (forall i, wsConnection s = Some i ->
     nth_error (sockets s) i = Some OPEN \/ nth_error (sockets s) i = Some CLOSING) /\
  (connectionStatus s = connected -> wsConnection s <> None).

Definition is_live (r : ReadyState) : bool :=
  match r with CLOSED => false | _ => true end.

(** Non-closed sockets of the connection. *)
Definition live (s : State) : nat :=
  List.length (filter is_live (sockets s)).

Definition flag (b : bool) : nat := if b then 1 else 0.




End Settings.

(** *** A recording during which the learner pins a model *)

Module PinnedTurn.

Import AdvancedVoiceChat Settings.

(** One recording started from state [s], up to the moment the recorder's
    [stop] event fires: the microphone button starts it, [during] happens
    while it runs, the button stops it and the recorder delivers its data
    [blob]. *)
Definition recorded (blob : nat) (during : State -> State) (s : State) : State :=
  ondataavailable true blob
    (state_of (stopRecording (during (state_of (startRecording true s))))).

(** A first recording after mount.  Its [onstop] runs the [processAudio] of
    the first render, where [audioChunks] is empty. *)
Definition first_recording : State :=
  state_of (recorder_onstop mount (transcribe_text "hi") chat_rejected
              (recorded 7 (fun s => s) mount)).

(** The learner picks the model phi3:mini, turns automatic switching off and
    asks for Quality mode; every request succeeds. *)
Definition pin_phi3_quality (s : State) : State :=
  state_of (updateConversationMode quality (ok_body tt)
    (setAutoModelSwitch false
       (state_of (switchModel "phi3:mini" (ok_body "phi3:mini") s)))).

(** A second recording, during which the learner pins the model; the state
    is the one in which the recorder's [stop] event fires. *)
Definition pinned_while_recording : State :=
  recorded 8 pin_phi3_quality first_recording.

(** The reply of the back end, which answered with gemma2:2b. *)
Definition reply : ChatOutcome :=
  chat_body "Hello!" (Some (mkStats "gemma2:2b" 1 5 2)) None.

(** The second recording is transcribed as "hello" and answered. *)
Definition second_recording : State :=
  state_of (recorder_onstop first_recording (transcribe_text "hello") reply
              pinned_while_recording).

End PinnedTurn.

(** *** Text side of the VoiceInput component *)

Module VoiceInput.

Local Open Scope call_scope.

(** [textInput] and the texts handed to the [onSendMessage] prop. *)
Record State : Type := mkState {
  textInput : string;
  sent_messages : list string
}.

Definition handleSendText (s : State) : State :=
  if nonempty (trim (textInput s))
  then mkState "" (sent_messages s ++ [trim (textInput s)])
  else s.

(** [handleKeyPress(e)]: [key] is [e.key], [shiftKey] is [e.shiftKey]. *)
Definition handleKeyPress (key : string) (shiftKey : bool) (s : State) : State :=
  if (key =? "Enter")%string && negb shiftKey then handleSendText s else s.

Definition setTextInput (t : string) (s : State) : State :=
  mkState t (sent_messages s).

Inductive Event : Type :=
| Typed (t : string)
| KeyPress (key : string) (shiftKey : bool)
| ClickSend.

(** The send button carries [disabled={isLoading || !textInput.trim()}]
    and the text area [disabled={isLoading}]. *)
Definition handle (isLoading : bool) (e : Event) (s : State) : State :=
  if isLoading then s
  else
    match e with
    | Typed t => setTextInput t s
    | KeyPress key shiftKey => handleKeyPress key shiftKey s
    | ClickSend => if nonempty (trim (textInput s)) then handleSendText s else s
    end.

(** Events with the value of the [isLoading] prop at the time. *)
Definition run_input (es : list (bool * Event)) (s : State) : State :=
  fold_left (fun s e => handle (fst e) (snd e) s) es s.

(** Every text handed to [onSendMessage] is trimmed and not empty. *)
Definition clean (s : State) : Prop :=
  Forall (fun t => nonempty t = true /\ trim t = t) (sent_messages s).

End VoiceInput.

(** *** Measures on the real-time chat *)

Module History.

Import RealTimeChat.

(** User messages in the conversation. *)
Definition asked (s : State) : nat :=
  List.length (filter (fun m => match role m with user => true | assistant => false end)
                 (messages s)).

(** Every frame handed to any socket. *)
Definition frames (s : State) : list Frame := flat_map sent (sockets s).

(** A text that is not empty after [trim]. *)
Definition not_blank (t : string) : bool := nonempty (trim t).

(** What is kept of a conversation: user messages are not blank, and every
    frame is a chat frame whose content is a recorded user message. *)
Definition well_recorded (s : State) : Prop :=
  (forall m, In m (messages s) -> role m = user -> not_blank (content m) = true) /\
  (forall f, In f (frames s) ->
     frame_type f = "chat" /\ not_blank (frame_content f) = true /\
     In (mkMessage user (frame_content f) None) (messages s)).

(** The frames handed to each socket, socket by socket. *)
Definition outboxes (s : State) : list (list Frame) := map sent (sockets s).

(** What one handler can do to the conversation, the count and the
    outboxes: nothing; open a socket; record a user message without sending
    it; record and send it; record a reply, counted or not. *)
Inductive Effect (s s' : State) : Prop :=
| eff_quiet :
    messages s' = messages s -> totalMessages s' = totalMessages s ->
    outboxes s' = outboxes s -> Effect s s'
| eff_connect :
    messages s' = messages s -> totalMessages s' = totalMessages s ->
    outboxes s' = outboxes s ++ [[]] -> Effect s s'
| eff_kept (t : string) :
    not_blank t = true ->
    messages s' = messages s ++ [mkMessage user t None] ->
    totalMessages s' = totalMessages s ->
    outboxes s' = outboxes s -> Effect s s'
| eff_sent (t : string) (i : nat) :
    not_blank t = true ->
    messages s' = messages s ++ [mkMessage user t None] ->
    totalMessages s' = totalMessages s ->
    outboxes s' = update_nth i (fun l => l ++ [mkFrame "chat" t]) (outboxes s) ->
    Effect s s'
| eff_reply (c : string) (pt : option float) :
    messages s' = messages s ++ [mkMessage assistant c pt] ->
    totalMessages s' = totalMessages s \/ totalMessages s' = totalMessages s + 1 ->
    outboxes s' = outboxes s -> Effect s s'.

(** Whether the first character of a text is white space. *)
Definition starts_with_space (s : string) : bool :=
  match s with
  | EmptyString => false
  | String c _ => is_space c
  end.

End History.

(** * Properties *)

(** ** Lists of browser objects *)

Section UpdateNth.

Context {A : Type}.

Lemma update_nth_length (i : nat) (f : A -> A) (l : list A) :
  List.length (update_nth i f l) = List.length l.
Proof.
  revert i. induction l as [|x r IH]; intros [|j]; cbn; auto.
Qed.

Lemma update_nth_same (i : nat) (f : A -> A) (l : list A) :
  nth_error (update_nth i f l) i = option_map f (nth_error l i).
Proof.
  revert i. induction l as [|x r IH]; intros [|j]; cbn; auto.
Qed.

Lemma update_nth_other (i j : nat) (f : A -> A) (l : list A) :
  i <> j -> nth_error (update_nth i f l) j = nth_error l j.
Proof.
  revert i j. induction l as [|x r IH]; intros [|i] [|j] H; cbn; auto.
  congruence.
Qed.

Lemma nth_error_snoc (l : list A) (x : A) :
  nth_error (l ++ [x]) (List.length l) = Some x.
Proof.
  rewrite nth_error_app2 by lia. now rewrite Nat.sub_diag.
Qed.

Lemma nth_error_snoc_old (l : list A) (x : A) (i : nat) (a : A) :
  nth_error l i = Some a -> nth_error (l ++ [x]) i = Some a.
Proof.
  intros H. rewrite nth_error_app1; [exact H|].
  apply nth_error_Some. congruence.
Qed.

(** Replacing an element by one that does not satisfy [p] cannot raise the
    number of elements that do. *)
Lemma update_nth_filter_le (p : A -> bool) (i : nat) (f : A -> A) (l : list A) :
  (forall a, p (f a) = false) ->
  List.length (filter p (update_nth i f l)) <= List.length (filter p l).
Proof.
  intros Hf. revert i. induction l as [|x r IH]; intros [|j]; cbn; auto.
  - rewrite Hf. destruct (p x); cbn; lia.
  - specialize (IH j). destruct (p x); cbn; lia.
Qed.

Lemma filter_snoc_true (p : A -> bool) (l : list A) (x : A) :
  p x = true ->
  List.length (filter p (l ++ [x])) = List.length (filter p l) + 1.
Proof.
  intros H. rewrite filter_app, length_app. cbn. now rewrite H.
Qed.

End UpdateNth.

(** ** The running average *)

Section StatsFacts.

Import RealTimeChat Stats.

Lemma Qnat_succ_nonzero (n : nat) : ~ (Qnat (n + 1) == 0)%Q.
Proof.
  unfold Qnat, Qeq. simpl. lia.
Qed.

(** The numbers that are not truthy are the two zeros and [NaN]. *)
Lemma truthy_false (q : float) :
  truthy (Some q) = false <-> PrimFloat.is_zero q = true \/ PrimFloat.is_nan q = true.
Proof.
  unfold truthy. rewrite negb_false_iff. apply orb_true_iff.
Qed.

(** One counted reply: the count grows by one and the average follows the
    incremental formula with the captured count. *)
Lemma onmessage_counted (n : nat) (c : string) (l : float) (s : State) :
  truthy (Some l) = true ->
  totalMessages (onmessage n (chat_response c (Some l)) s) = totalMessages s + 1 /\
  avgResponseTime (onmessage n (chat_response c (Some l)) s)
  = update n (avgResponseTime s) l.
Proof.
  intros T. unfold onmessage. rewrite T. split; reflexivity.
Qed.

Lemma after_turns_cons (l : float) (lats : list float) (s : State) :
  after_turns (l :: lats) s = after_turns lats (deliver (chat_response "ok" (Some l)) s).
Proof. reflexivity. Qed.

(** Along counted replies handled by the handler of the latest render the
    count is the number of replies and the average is the recurrence. *)
Lemma after_turns_recurrence (lats : list float) :
  Forall (fun l => truthy (Some l) = true) lats ->
  forall s : State,
    totalMessages (after_turns lats s) = totalMessages s + List.length lats /\
    avgResponseTime (after_turns lats s)
    = recurrence (totalMessages s) (avgResponseTime s) lats.
Proof.
  induction 1 as [|l lats Hl _ IH]; intros s.
  - change (after_turns [] s) with s. cbn [List.length recurrence]. split; [lia|reflexivity].
  - rewrite after_turns_cons.
    destruct (onmessage_counted (totalMessages s) "ok" l s Hl) as [Hn Ha].
    fold (deliver (chat_response "ok" (Some l)) s) in Hn, Ha.
    destruct (IH (deliver (chat_response "ok" (Some l)) s)) as [IHn IHa].
    split.
    + rewrite IHn, Hn. cbn [List.length]. lia.
    + rewrite IHa, Hn, Ha. reflexivity.
Qed.

Lemma update_nth_snoc {A : Type} (f : A -> A) (pre : list A) (x : A) :
  update_nth (List.length pre) f (pre ++ [x]) = pre ++ [f x].
Proof.
  induction pre as [|a r IH]; cbn; [reflexivity|]. now rewrite IH.
Qed.

(** One turn on a live connection: the socket in [wsRef] opens, the reply
    arrives on it and is handled with the current count, and the effect
    replaces the socket by one whose handlers capture the new count. *)
Lemma live_turn (s : State) (pre : list Socket) (out : list Frame) (l : float) :
  sockets s = pre ++ [mkSocket CONNECTING (totalMessages s) out] ->
  wsRef s = Some (List.length pre) ->
  truthy (Some l) = true ->
  exists s2,
    step (SocketOpen (List.length pre)) s
    = Some (onopen (set_readyState (List.length pre) OPEN s)) /\
    step (SocketMessage (List.length pre) (chat_response "ok" (Some l)))
      (onopen (set_readyState (List.length pre) OPEN s)) = Some s2 /\
    sockets s2 = (pre ++ [mkSocket CLOSING (totalMessages s) out])
                 ++ [mkSocket CONNECTING (totalMessages s2) []] /\
    wsRef s2 = Some (List.length (pre ++ [mkSocket CLOSING (totalMessages s) out])) /\
    totalMessages s2 = totalMessages s + 1 /\
    avgResponseTime s2 = update (totalMessages s) (avgResponseTime s) l.
Proof.
  intros Hs Hw Hl.
  destruct s as [ms rec prc inp avg n sks w tms rcs mr lg sp].
  cbn in Hs, Hw. subst sks w.
  assert (E1 : step (SocketOpen (List.length pre))
                 (mkState ms rec prc inp avg n (pre ++ [mkSocket CONNECTING n out])
                    (Some (List.length pre)) tms rcs mr lg sp)
               = Some (onopen (set_readyState (List.length pre) OPEN
                    (mkState ms rec prc inp avg n (pre ++ [mkSocket CONNECTING n out])
                       (Some (List.length pre)) tms rcs mr lg sp)))).
  { unfold step, handle, socket_state. cbn [sockets].
    rewrite nth_error_snoc. cbn [option_map readyState].
    cbv [rerun_effect onopen set_readyState set_sockets report totalMessages].
    now rewrite Nat.eqb_refl. }
  cbv [onopen set_readyState set_sockets report
       sockets totalMessages messages isRecording isProcessing inputText
       avgResponseTime wsRef timers recorders mediaRecorderRef log spoken] in E1 |- *.
  rewrite update_nth_snoc in E1 |- *. cbn [closure sent] in E1 |- *.
  eexists. split; [exact E1|].
  unfold step, handle, socket_state, socket_closure. cbn [sockets].
  rewrite nth_error_snoc. cbn [option_map readyState closure].
  unfold onmessage. rewrite Hl.
  cbv [rerun_effect speakText speak setAvgResponseTime setTotalMessages
       setIsProcessing setMessages option_map
       sockets totalMessages messages isRecording isProcessing inputText
       avgResponseTime wsRef timers recorders mediaRecorderRef log spoken].
  destruct (Nat.eqb_spec (n + 1) n) as [E|_]; [lia|].
  cbv [connectWebSocket cleanup ws_close set_wsRef set_sockets
       sockets totalMessages messages isRecording isProcessing inputText
       avgResponseTime wsRef timers recorders mediaRecorderRef log spoken].
  rewrite update_nth_snoc. cbn [readyState closure sent].
  split; [reflexivity|].
  cbn [sockets wsRef totalMessages avgResponseTime].
  split; [reflexivity|]. split; [reflexivity|]. split; reflexivity.
Qed.

(** Along turns on a live connection the count and the average are those
    of the replies handled by the handler of the latest render. *)
Lemma live_turns (lats : list float) :
  Forall (fun l => truthy (Some l) = true) lats ->
  forall (s : State) (pre : list Socket) (out : list Frame),
    sockets s = pre ++ [mkSocket CONNECTING (totalMessages s) out] ->
    wsRef s = Some (List.length pre) ->
    exists s',
      run (turn_events (List.length pre) lats) s = Some s' /\
      totalMessages s' = totalMessages s + List.length lats /\
      avgResponseTime s' = recurrence (totalMessages s) (avgResponseTime s) lats.
Proof.
  induction 1 as [|l lats Hl _ IH]; intros s pre out Hs Hw.
  - exists s. cbn [turn_events run List.length recurrence].
    split; [reflexivity|]. split; [lia|reflexivity].
  - destruct (live_turn s pre out l Hs Hw Hl) as (s2 & E1 & E2 & Hs2 & Hw2 & Hn & Ha).
    destruct (IH s2 _ _ Hs2 Hw2) as (s' & Er & Hn' & Ha').
    exists s'. cbn [turn_events run]. rewrite E1, E2.
    rewrite length_app in Er. cbn [List.length] in Er.
    split; [exact Er|]. split.
    + rewrite Hn', Hn. cbn [List.length]. lia.
    + rewrite Ha', Hn, Ha. reflexivity.
Qed.

(** The invariant behind the exact mean: while no update rounds, average
    times count is the sum of the latencies. *)
Lemma recurrence_exact (lats : list float) :
  forall (n : nat) (avg : float) (a acc : Q),
    exact avg = Some a ->
    (a * Qnat n == acc)%Q ->
    no_rounding n avg lats = true ->
    exists a',
      exact (recurrence n avg lats) = Some a' /\
      (a' * Qnat (n + List.length lats) == acc + Qsum (map value lats))%Q.
Proof.
  induction lats as [|l lats IH]; intros n avg a acc Ha Hacc Hno.
  - exists a. split; [exact Ha|].
    cbn [List.length map Qsum fold_right]. rewrite Nat.add_0_r, Hacc. ring.
  - cbn [no_rounding] in Hno. apply andb_true_iff in Hno. destruct Hno as [Hu Hrest].
    unfold update_exact in Hu. rewrite Ha in Hu.
    destruct (exact l) as [v|] eqn:El; [|discriminate].
    destruct (exact (update n avg l)) as [r|] eqn:Er; [|discriminate].
    apply Qeq_bool_iff in Hu.
    destruct (IH (n + 1) (update n avg l) r (acc + v)%Q Er) as (a' & Ea' & Hsum).
    + rewrite Hu, <- Hacc. field. apply Qnat_succ_nonzero.
    + exact Hrest.
    + exists a'. split; [exact Ea'|].
      cbn [List.length map].
      replace (n + S (List.length lats)) with (n + 1 + List.length lats) by lia.
      rewrite Hsum.
      change (Qsum (value l :: map value lats)) with (value l + Qsum (map value lats))%Q.
      unfold value at 2. rewrite El. ring.
Qed.

End StatsFacts.

Section RollingStats.

Import RealTimeChat Stats.

(** C1 (as amended).  For every sequence of chat replies whose
    [processing_time] values [L1..Ln] are all truthy numbers, each handled
    by the handler of the latest render (its captured count is the current
    count): the count after the last reply is [n]; the running average is
    the result of the updates [avg' = (avg * k + latency) / (k + 1)],
    [k = 0 .. n-1], carried out on binary64 numbers; whenever none of these
    updates rounds, that number is the arithmetic mean of [L1..Ln]; each
    reply performs exactly one such update and adds one to the count; and
    the mounted component reaches that count and that average when each
    reply arrives over the socket opened after the previous one. *)
Theorem running_average_follows_update :
  forall lats : list float,
    Forall (fun l => truthy (Some l) = true) lats ->
    totalMessages (after_turns lats mount) = List.length lats /\
    avgResponseTime (after_turns lats mount) = recurrence 0 0 lats /\
    (lats <> [] -> no_rounding 0 0 lats = true ->
     exists a,
       exact (avgResponseTime (after_turns lats mount)) = Some a /\
       (a == mean (map value lats))%Q) /\
    (forall (s : State) (c : string) (l : float),
        truthy (Some l) = true ->
        totalMessages (deliver (chat_response c (Some l)) s) = totalMessages s + 1 /\
        avgResponseTime (deliver (chat_response c (Some l)) s)
        = ((avgResponseTime s * float_of_nat (totalMessages s) + l)
           / (float_of_nat (totalMessages s) + 1))%float) /\
    (exists s',
        run (turn_events 0 lats) mount = Some s' /\
        totalMessages s' = totalMessages (after_turns lats mount) /\
        avgResponseTime s' = avgResponseTime (after_turns lats mount)).
Proof.
  intros lats Hnz.
  destruct (after_turns_recurrence lats Hnz mount) as [Hn Ha].
  change (totalMessages mount) with 0 in Hn, Ha. cbn [Nat.add] in Hn.
  change (avgResponseTime mount) with 0%float in Ha.
  split; [exact Hn|]. split; [exact Ha|]. split.
  - intros Hne Hno. rewrite Ha.
    destruct (recurrence_exact lats 0 0%float 0%Q 0%Q eq_refl) as (a & Ea & Hsum).
    + reflexivity.
    + exact Hno.
    + exists a. split; [exact Ea|].
      unfold mean. rewrite length_map.
      cbn [Nat.add] in Hsum. rewrite Qplus_0_l in Hsum.
      assert (Hlen : ~ (Qnat (List.length lats) == 0)%Q).
      { destruct lats as [|x r]; [congruence|].
        unfold Qnat, Qeq. cbn [List.length]. simpl. lia. }
      rewrite <- Hsum. field. exact Hlen.
  - split; [intros s c l Hl; apply onmessage_counted; exact Hl|].
    destruct (live_turns lats Hnz mount [] [] eq_refl eq_refl) as (s' & Er & Hn' & Ha').
    exists s'. split; [exact Er|]. split.
    + rewrite Hn', Hn. reflexivity.
    + rewrite Ha', Ha. reflexivity.
Qed.

Lemma running_average_follows_update_witness :
  Forall (fun l => truthy (Some l) = true) [0.5; 1.5]%float /\
  totalMessages (after_turns [0.5; 1.5]%float mount) = 2 /\
  avgResponseTime (after_turns [0.5; 1.5]%float mount) = 1%float /\
  exists a,
    exact (avgResponseTime (after_turns [0.5; 1.5]%float mount)) = Some a /\
    (a == 1)%Q.
Proof.
  assert (H : Forall (fun l => truthy (Some l) = true) [0.5; 1.5]%float).
  { repeat constructor. }
  split; [exact H|].
  destruct (running_average_follows_update [0.5; 1.5]%float H) as (Hn & Ha & Hm & _).
  split; [exact Hn|]. split; [rewrite Ha; vm_compute; reflexivity|].
  destruct Hm as (a & Ea & Hmean); [discriminate|vm_compute; reflexivity|].
  exists a. split; [exact Ea|].
  rewrite Hmean. vm_compute. reflexivity.
Defined.

(** First end-to-end scenario of the specification: one reply with latency
    0.8 s leaves the average at 0.8. *)
Example first_turn_average :
  totalMessages (after_turns [f0_8] mount) = 1 /\
  avgResponseTime (after_turns [f0_8] mount) = f0_8.
Proof. vm_compute. split; reflexivity. Qed.

(** C1 as stated fails twice.  A completed turn whose latency is zero is not
    counted: after latencies [0; 2] the count is 1, not 2.  And the updates
    round: after the latencies written 0.1 and 0.2 the count is 2 and the
    average is the number printed 0.15000000000000002, which is neither the
    arithmetic mean of the two latencies nor the binary64 number that 0.15
    denotes. *)
Lemma running_average_is_not_the_mean :
  ~ (totalMessages (after_turns [0; 2]%float mount) = List.length [0; 2]%float) /\
  Forall (fun l => truthy (Some l) = true) [f0_1; f0_2] /\
  totalMessages (after_turns [f0_1; f0_2] mount) = 2 /\
  avgResponseTime (after_turns [f0_1; f0_2] mount) = f0_15000000000000002 /\
  avgResponseTime (after_turns [f0_1; f0_2] mount) <> f0_15 /\
  ~ (exists a,
       exact (avgResponseTime (after_turns [f0_1; f0_2] mount)) = Some a /\
       (a == mean (map value [f0_1; f0_2]))%Q).
Proof.
  split; [intros Hn; vm_compute in Hn; discriminate|].
  split; [repeat constructor|].
  split; [vm_compute; reflexivity|].
  split; [vm_compute; reflexivity|].
  split.
  - intros E. apply (f_equal (fun x => PrimFloat.eqb x f0_15)) in E.
    vm_compute in E. discriminate.
  - intros (a & Ea & Hmean).
    assert (E : exact (avgResponseTime (after_turns [f0_1; f0_2] mount))
                = Some (value f0_15000000000000002)) by (vm_compute; reflexivity).
    rewrite E in Ea. injection Ea as <-.
    apply Qeq_bool_iff in Hmean. vm_compute in Hmean. discriminate.
Qed.

(** The average the run with a zero latency ends with. *)
Example zero_latency_turn_average :
  totalMessages (after_turns [0; 2]%float mount) = 1 /\
  avgResponseTime (after_turns [0; 2]%float mount) = 2%float /\
  (mean (map value [0; 2]%float) == 1)%Q.
Proof. vm_compute. repeat split; congruence. Qed.

(** A handler whose captured count is behind the current count replaces the
    average by the latest latency.  Such a handler is installed when the
    timer of a socket closed by the effect clean-up fires: here the second
    reply, with latency 3 after a first one of 1, arrives on the socket made
    by that timer. *)
Example stale_handler_average :
  option_map (fun s => (totalMessages s, avgResponseTime s))
    (run [SocketOpen 0; SocketMessage 0 (chat_response "a" (Some 1%float));
          SocketClose 0; TimerFires; SocketOpen 2;
          SocketMessage 2 (chat_response "b" (Some 3%float))] mount)
  = Some (2, 3%float).
Proof. vm_compute. reflexivity. Qed.

(** C10.  A chat reply whose [processing_time] is absent or a zero is
    appended to the conversation as an assistant message, while the count of
    completed turns and the running average stay as they were.  The same
    holds of a [processing_time] that is [NaN]. *)
Theorem reply_without_processing_time_not_counted :
  forall (n : nat) (s : State) (c : string) (pt : option float),
    (pt = None \/
     exists q, pt = Some q /\ (PrimFloat.is_zero q = true \/ PrimFloat.is_nan q = true)) ->
    messages (onmessage n (chat_response c pt) s)
    = messages s ++ [mkMessage assistant c pt] /\
    totalMessages (onmessage n (chat_response c pt) s) = totalMessages s /\
    avgResponseTime (onmessage n (chat_response c pt) s) = avgResponseTime s.
Proof.
  intros n s c pt [-> | (q & -> & Hq)].
  - repeat split.
  - unfold onmessage. rewrite (proj2 (truthy_false q) Hq). repeat split.
Qed.

Lemma reply_without_processing_time_not_counted_witness :
  (Some 0%float = None \/
   exists q, Some 0%float = Some q /\
             (PrimFloat.is_zero q = true \/ PrimFloat.is_nan q = true)) /\
  messages (onmessage 0 (chat_response "hello" (Some 0%float)) mount)
  = [mkMessage assistant "hello" (Some 0%float)] /\
  totalMessages (onmessage 0 (chat_response "hello" (Some 0%float)) mount) = 0 /\
  avgResponseTime (onmessage 0 (chat_response "hello" (Some 0%float)) mount) = 0%float.
Proof.
  assert (H : Some 0%float = None \/
              exists q, Some 0%float = Some q /\
                        (PrimFloat.is_zero q = true \/ PrimFloat.is_nan q = true)).
  { right. exists 0%float. split; [reflexivity|left; reflexivity]. }
  split; [exact H|].
  exact (reply_without_processing_time_not_counted 0 mount "hello" (Some 0%float) H).
Defined.

End RollingStats.

(** ** Dispatch over the socket *)

Section Dispatch.

Import RealTimeChat Scenario.

(** The controls that start a turn are disabled while [isProcessing]. *)
Lemma controls_disabled_while_processing (s : State) :
  isProcessing s = true ->
  (forall g, handle (ClickMic g) s = None) /\
  (forall t, handle (ChangeInput t) s = None) /\
  handle SubmitForm s = None.
Proof.
  intros H. cbn. rewrite H. auto.
Qed.

(** [sendMessage] itself looks at the socket only. *)
Lemma sendMessage_sets_processing (text : string) (s : State) :
  isProcessing (state_of (sendMessage text s)) = true.
Proof.
  unfold sendMessage, bind, modify, gets, state_of. cbn.
  destruct (ws_is_open _); reflexivity.
Qed.

(** C2 (defect in the code).  Every event of [overlapping_turns] is enabled
    in turn from the connected chat; the run sends two chat frames over the
    open socket and receives no reply, so two dispatched turns are
    outstanding at the same time. *)
Theorem two_turns_outstanding :
  option_map
    (fun s => (outstanding s, option_map sent (nth_error (sockets s) 0), answered s))
    (run overlapping_turns online)
  = Some (2, Some [mkFrame "chat" "hi"; mkFrame "chat" "hello"], 0).
Proof. vm_compute. reflexivity. Qed.

(** C7 (as amended).  [sendMessage] transmits the chat frame only when
    [wsRef.current] is an open socket.  Otherwise it transmits nothing and
    still ends normally, without any error or report: the user message is
    appended to the conversation and [isProcessing] is set all the same. *)
Theorem sendMessage_when_not_open :
  forall (s : State) (text : string),
    ws_is_open s = None ->
    result (sendMessage text s) = inr tt /\
    sockets (state_of (sendMessage text s)) = sockets s /\
    log (state_of (sendMessage text s)) = log s /\
    messages (state_of (sendMessage text s)) = messages s ++ [mkMessage user text None] /\
    isProcessing (state_of (sendMessage text s)) = true.
Proof.
  intros s text H.
  unfold sendMessage, bind, modify, gets, result, state_of, ret. cbn.
  assert (E : ws_is_open
                (setIsProcessing true
                   (setInputText ""
                      (setMessages (fun prev => prev ++ [mkMessage user text None]) s)))
              = ws_is_open s) by reflexivity.
  rewrite E, H. cbn. repeat split.
Qed.

Lemma sendMessage_when_not_open_witness :
  ws_is_open mount = None /\
  result (sendMessage "hi" mount) = inr tt /\
  sockets (state_of (sendMessage "hi" mount)) = [mkSocket CONNECTING 0 []] /\
  messages (state_of (sendMessage "hi" mount)) = [mkMessage user "hi" None].
Proof.
  assert (H : ws_is_open mount = None) by reflexivity.
  split; [exact H|].
  destruct (sendMessage_when_not_open mount "hi" H) as (Hr & Hs & _ & Hm & _).
  split; [exact Hr|]. split; [exact Hs|exact Hm].
Defined.

(** With an open socket the frame is handed to it. *)
Lemma sendMessage_when_open (s : State) (text : string) (i : nat) :
  ws_is_open s = Some i ->
  result (sendMessage text s) = inr tt /\
  sockets (state_of (sendMessage text s))
  = update_nth i (fun k => mkSocket (readyState k) (closure k)
                             (sent k ++ [mkFrame "chat" text])) (sockets s).
Proof.
  intros H.
  unfold sendMessage, bind, modify, gets, result, state_of, ret. cbn.
  assert (E : ws_is_open
                (setIsProcessing true
                   (setInputText ""
                      (setMessages (fun prev => prev ++ [mkMessage user text None]) s)))
              = ws_is_open s) by reflexivity.
  rewrite E, H. cbn. split; reflexivity.
Qed.

(** C7 as stated fails: with the socket still connecting, [sendMessage] does
    not fail with [NotConnected]; it ends normally and the message is never
    transmitted. *)
Lemma send_while_connecting_is_silent :
  ws_is_open mount = None /\
  result (sendMessage "hi" mount) <> inl NotConnected /\
  dispatched (state_of (sendMessage "hi" mount)) = 0 /\
  log (state_of (sendMessage "hi" mount)) = [].
Proof. vm_compute. repeat split. discriminate. Qed.

End Dispatch.

(** ** Recording *)

Section Recording.

Import RealTimeChat.

Lemma stopRecording_no_new_recording (s : State) :
  active_recordings (state_of (stopRecording s)) <= active_recordings s.
Proof.
  unfold stopRecording, recorder_stop, bind, gets, modify, throw, ret, state_of.
  cbn. destruct (mediaRecorderRef s) as [i|]; cbn; [|lia].
  destruct (isRecording s); cbn; [|lia].
  destruct (nth_error (recorders s) i) as [[| | |]|]; cbn; try lia.
  unfold active_recordings. cbn.
  apply (update_nth_filter_le is_recording). reflexivity.
Qed.

Lemma startRecording_starts (s : State) :
  result (startRecording true s) = inr tt /\
  active_recordings (state_of (startRecording true s)) = active_recordings s + 1 /\
  isRecording (state_of (startRecording true s)) = true.
Proof.
  unfold startRecording, try_catch, bind, gets, modify, ret, result, state_of.
  cbn. repeat split.
  unfold active_recordings. cbn.
  apply (filter_snoc_true is_recording). reflexivity.
Qed.

Lemma avc_startRecording_starts (s : AdvancedVoiceChat.State) :
  result (AdvancedVoiceChat.startRecording true s) = inr tt /\
  AdvancedVoiceChat.active_recordings
    (state_of (AdvancedVoiceChat.startRecording true s))
  = AdvancedVoiceChat.active_recordings s + 1.
Proof.
  unfold AdvancedVoiceChat.startRecording, try_catch, bind, gets, modify, ret,
    result, state_of.
  cbn. split; [reflexivity|].
  unfold AdvancedVoiceChat.active_recordings. cbn.
  assert (E : forall l : list bool,
             update_nth (List.length l) (fun _ => true) (l ++ [false]) = l ++ [true]).
  { induction l as [|x r IH]; cbn; [reflexivity|]. now rewrite IH. }
  rewrite E. apply (filter_snoc_true (fun b : bool => b)). reflexivity.
Qed.

(** C9 (as amended).  While [isRecording] is set the microphone control
    calls [stopRecording], which starts no recording; [startRecording]
    itself makes no check: whenever the microphone is granted it starts one
    more recorder and ends normally, also when a recording is already
    active.  No call fails with [AlreadyRecording]. *)
Theorem recording_guarded_by_control_only :
  (forall (s : State) (g : bool),
      isProcessing s = false -> isRecording s = true ->
      handle (ClickMic g) s = Some (state_of (stopRecording s)) /\
      active_recordings (state_of (stopRecording s)) <= active_recordings s) /\
  (forall s : State,
      result (startRecording true s) = inr tt /\
      active_recordings (state_of (startRecording true s)) = active_recordings s + 1) /\
  (forall s : AdvancedVoiceChat.State,
      result (AdvancedVoiceChat.startRecording true s) = inr tt /\
      AdvancedVoiceChat.active_recordings
        (state_of (AdvancedVoiceChat.startRecording true s))
      = AdvancedVoiceChat.active_recordings s + 1).
Proof.
  split; [|split].
  - intros s g Hp Hr. split.
    + cbn. now rewrite Hp, Hr.
    + apply stopRecording_no_new_recording.
  - intros s. destruct (startRecording_starts s) as (H1 & H2 & _). now split.
  - apply avc_startRecording_starts.
Qed.

Lemma recording_guarded_by_control_only_witness :
  let s := state_of (startRecording true mount) in
  isProcessing s = false /\ isRecording s = true /\
  handle (ClickMic true) s = Some (state_of (stopRecording s)) /\
  active_recordings (state_of (stopRecording s)) <= active_recordings s.
Proof.
  cbv zeta.
  assert (Hp : isProcessing (state_of (startRecording true mount)) = false)
    by reflexivity.
  assert (Hr : isRecording (state_of (startRecording true mount)) = true)
    by reflexivity.
  split; [exact Hp|]. split; [exact Hr|].
  exact (proj1 recording_guarded_by_control_only
           (state_of (startRecording true mount)) true Hp Hr).
Defined.

(** C9 as stated fails: [startRecording] called while a recording is active
    does not fail with [AlreadyRecording]; it ends normally and a second
    recording is active. *)
Lemma second_start_begins_second_recording :
  let s := state_of (startRecording true mount) in
  active_recordings s = 1 /\
  result (startRecording true s) <> inl AlreadyRecording /\
  active_recordings (state_of (startRecording true s)) = 2.
Proof. vm_compute. repeat split. discriminate. Qed.

End Recording.

(** ** Transcription that yields no text *)

Section EmptyTranscription.

Import Scenario.

(** C3 (as amended).  When the transcription request fails or its text is
    empty or white space only, [processAudio] stops before [sendMessage]: no
    message is added to the conversation and nothing is dispatched, in both
    components.  The call still ends normally; empty or blank text is
    reported nowhere (only a failed request is logged), so no
    [TranscriptionFailed] is signalled. *)
Theorem no_turn_without_transcript :
  (forall (s : RealTimeChat.State) (t : RealTimeChat.Transcription),
      no_transcript t = true ->
      RealTimeChat.messages (state_of (RealTimeChat.processAudio t s))
      = RealTimeChat.messages s /\
      RealTimeChat.sockets (state_of (RealTimeChat.processAudio t s))
      = RealTimeChat.sockets s /\
      result (RealTimeChat.processAudio t s) = inr tt /\
      (forall x, t = RealTimeChat.body_text x ->
         RealTimeChat.log (state_of (RealTimeChat.processAudio t s))
         = RealTimeChat.log s)) /\
  (forall (s : AdvancedVoiceChat.State) (chunks : list nat)
          (seen : AdvancedVoiceChat.Render)
          (t : AdvancedVoiceChat.Transcription) (c : AdvancedVoiceChat.ChatOutcome),
      no_transcript_avc t = true ->
      AdvancedVoiceChat.messages (state_of (AdvancedVoiceChat.processAudio chunks seen t c s))
      = AdvancedVoiceChat.messages s /\
      AdvancedVoiceChat.requests (state_of (AdvancedVoiceChat.processAudio chunks seen t c s))
      = AdvancedVoiceChat.requests s /\
      result (AdvancedVoiceChat.processAudio chunks seen t c s) = inr tt /\
      (forall x, t = AdvancedVoiceChat.transcribe_text x ->
         AdvancedVoiceChat.log (state_of (AdvancedVoiceChat.processAudio chunks seen t c s))
         = AdvancedVoiceChat.log s)).
Proof.
  split.
  - intros s t H.
    unfold RealTimeChat.processAudio, RealTimeChat.processAudio_begin,
      RealTimeChat.processAudio_resume, try_catch, bind, modify, throw, ret,
      result, state_of.
    destruct t as [| | |x]; cbn in *; repeat split; try discriminate.
    all: apply negb_true_iff in H; rewrite H; cbn; try reflexivity.
    all: intros; reflexivity.
  - intros s chunks seen t c H.
    unfold AdvancedVoiceChat.processAudio, try_finally, try_catch, bind,
      modify, throw, ret, result, state_of.
    destruct chunks as [|b r]; [cbn; repeat split|].
    destruct t as [| |x]; cbn in *; repeat split; try discriminate.
    all: apply negb_true_iff in H; rewrite H; cbn; try reflexivity.
    all: intros; reflexivity.
Qed.

Lemma no_turn_without_transcript_witness :
  no_transcript (RealTimeChat.body_text "   ") = true /\
  RealTimeChat.messages
    (state_of (RealTimeChat.processAudio (RealTimeChat.body_text "   ") online))
  = [] /\
  result (RealTimeChat.processAudio (RealTimeChat.body_text "   ") online) = inr tt.
Proof.
  assert (H : no_transcript (RealTimeChat.body_text "   ") = true) by reflexivity.
  split; [exact H|].
  destruct (proj1 no_turn_without_transcript online (RealTimeChat.body_text "   ") H)
    as (Hm & _ & Hr & _).
  split; [exact Hm|exact Hr].
Defined.

(** C3 as stated fails: for an empty transcription the pipeline does not
    report [TranscriptionFailed]; the call ends normally and nothing is
    written to the console or shown to the user. *)
Lemma empty_transcription_is_silent :
  result (RealTimeChat.processAudio (RealTimeChat.body_text "") online)
  <> inl TranscriptionFailed /\
  RealTimeChat.log (state_of (RealTimeChat.processAudio (RealTimeChat.body_text "") online))
  = RealTimeChat.log online /\
  result (AdvancedVoiceChat.processAudio [1]
            (AdvancedVoiceChat.render AdvancedVoiceChat.mount)
            (AdvancedVoiceChat.transcribe_text "")
            AdvancedVoiceChat.chat_rejected AdvancedVoiceChat.mount)
  <> inl TranscriptionFailed /\
  AdvancedVoiceChat.log
    (state_of (AdvancedVoiceChat.processAudio [1]
            (AdvancedVoiceChat.render AdvancedVoiceChat.mount)
            (AdvancedVoiceChat.transcribe_text "")
                 AdvancedVoiceChat.chat_rejected AdvancedVoiceChat.mount))
  = [].
Proof. vm_compute. repeat split; discriminate. Qed.

End EmptyTranscription.

(** ** Playback *)

Section Playback.

Import AudioPlayer.

Lemma playAudio_accepted (b : nat) (s : State) :
  result (playAudio b true s) = inr tt /\
  isPlaying (state_of (playAudio b true s)) = true /\
  audioRef (state_of (playAudio b true s)) = Some (List.length (elements s)) /\
  elements (state_of (playAudio b true s))
  = match audioRef s with
    | Some i =>
        update_nth i (fun a => mkAudio (blob a) true (position a) (revoked a))
          (elements s)
    | None => elements s
    end ++ [mkAudio b false 0%Q false].
Proof.
  unfold playAudio, try_catch, bind, gets, modify, ret, result, state_of.
  cbn. destruct (audioRef s) as [i|]; cbn.
  - rewrite update_nth_length. repeat split.
    unfold start, pause, update_element. cbn.
    set (l := update_nth i _ (elements s)).
    assert (E : List.length (elements s) = List.length l)
      by (unfold l; now rewrite update_nth_length).
    rewrite E. clear E. induction l as [|x r IH]; cbn; [reflexivity|].
    now rewrite IH.
  - repeat split. unfold start, update_element. cbn.
    induction (elements s) as [|x r IH]; cbn; [reflexivity|]. now rewrite IH.
Qed.

(** C4 (as amended).  [playAudio] never fails with [PlaybackBusy].  If an
    element is held in [audioRef] it is paused and dropped; then, in every
    case, a new element for the given artifact starts playing and
    [isPlaying] is set.  [isPlaying] is cleared when that element ends or
    raises an error, and at once when [play()] is refused. *)
Theorem playAudio_replaces_current :
  forall (s : State) (b : nat),
    result (playAudio b true s) = inr tt /\
    isPlaying (state_of (playAudio b true s)) = true /\
    audioRef (state_of (playAudio b true s)) = Some (List.length (elements s)) /\
    nth_error (elements (state_of (playAudio b true s))) (List.length (elements s))
    = Some (mkAudio b false 0%Q false) /\
    (forall i a,
        audioRef s = Some i -> nth_error (elements s) i = Some a ->
        nth_error (elements (state_of (playAudio b true s))) i
        = Some (mkAudio (blob a) true (position a) (revoked a))) /\
    isPlaying (on_ended (List.length (elements s)) (state_of (playAudio b true s))) = false /\
    isPlaying (on_error (List.length (elements s)) (state_of (playAudio b true s))) = false /\
    result (playAudio b false s) = inr tt /\
    isPlaying (state_of (playAudio b false s)) = false.
Proof.
  intros s b.
  destruct (playAudio_accepted b s) as (Hr & Hp & Href & Hel).
  split; [exact Hr|]. split; [exact Hp|]. split; [exact Href|].
  split; [|split; [|split; [|split; [|split]]]].
  - rewrite Hel. destruct (audioRef s) as [i|].
    + rewrite <- (update_nth_length i
                    (fun a => mkAudio (blob a) true (position a) (revoked a))
                    (elements s)).
      apply nth_error_snoc.
    + apply nth_error_snoc.
  - intros i a Hi Ha. rewrite Hel, Hi.
    apply nth_error_snoc_old. rewrite update_nth_same, Ha. reflexivity.
  - reflexivity.
  - reflexivity.
  - unfold playAudio, try_catch, bind, gets, modify, throw, ret, result.
    cbn. destruct (audioRef s); reflexivity.
  - unfold playAudio, try_catch, bind, gets, modify, throw, ret, state_of.
    cbn. destruct (audioRef s); reflexivity.
Qed.

Lemma playAudio_replaces_current_witness :
  let s := state_of (playAudio 1 true initial) in
  audioRef s = Some 0 /\
  nth_error (elements s) 0 = Some (mkAudio 1 false 0%Q false) /\
  nth_error (elements (state_of (playAudio 2 true s))) 0
  = Some (mkAudio 1 true 0%Q false).
Proof.
  cbv zeta.
  assert (Hi : audioRef (state_of (playAudio 1 true initial)) = Some 0)
    by reflexivity.
  assert (Ha : nth_error (elements (state_of (playAudio 1 true initial))) 0
               = Some (mkAudio 1 false 0%Q false)) by reflexivity.
  split; [exact Hi|]. split; [exact Ha|].
  destruct (playAudio_replaces_current (state_of (playAudio 1 true initial)) 2)
    as (_ & _ & _ & _ & Hold & _).
  exact (Hold 0 (mkAudio 1 false 0%Q false) Hi Ha).
Defined.

(** C4 as stated fails: while artifact 1 is playing, [playAudio] on artifact
    2 does not fail with [PlaybackBusy]; it ends normally, artifact 1 is
    paused and artifact 2 is the one playing. *)
Lemma play_while_playing_replaces :
  let s := state_of (playAudio 1 true initial) in
  isPlaying s = true /\ playing s = [1] /\
  result (playAudio 2 true s) <> inl PlaybackBusy /\
  playing (state_of (playAudio 2 true s)) = [2].
Proof. vm_compute. repeat split. discriminate. Qed.

End Playback.

(** ** Connection *)

Section Connection.

Import AdvancedVoiceChat.

(** What [ws.onclose] does to a socket that is not yet closed. *)
Lemma close_event (s : State) (i : nat) (r : ReadyState) :
  nth_error (sockets s) i = Some r -> r <> CLOSED ->
  handle (SocketClose i) s
  = Some (onclose (set_sockets (update_nth i (fun _ => CLOSED)) s)).
Proof.
  intros H Hr. cbn. rewrite H. destruct r; congruence.
Qed.

(** A pending timer, once fired, starts a connection attempt. *)
Lemma timer_event (s : State) (d : nat) (rest : list nat) :
  timers s = d :: rest ->
  exists s2,
    handle TimerFires s = Some s2 /\
    connectionStatus s2 = connecting /\
    timers s2 = rest /\
    sockets s2 = sockets s ++ [CONNECTING].
Proof.
  intros H. cbn. rewrite H. eexists. split; [reflexivity|]. repeat split.
Qed.

Lemma snoc_is_cons {A : Type} (l : list A) (x : A) :
  exists d rest, l ++ [x] = d :: rest /\ List.length rest = List.length l.
Proof.
  destruct l as [|a r]; cbn.
  - now exists x, [].
  - exists a, (r ++ [x]). split; [reflexivity|]. rewrite length_app. cbn. lia.
Qed.

Lemma close_then_timer (s : State) (i : nat) (r : ReadyState) :
  nth_error (sockets s) i = Some r -> r <> CLOSED ->
  exists s1 s2,
    handle (SocketClose i) s = Some s1 /\
    connectionStatus s1 = disconnected /\
    wsConnection s1 = None /\
    timers s1 = timers s ++ [RECONNECT_DELAY] /\
    handle TimerFires s1 = Some s2 /\
    connectionStatus s2 = connecting /\
    List.length (timers s2) = List.length (timers s) /\
    sockets s2 = sockets s1 ++ [CONNECTING].
Proof.
  intros H Hr.
  set (s1 := onclose (set_sockets (update_nth i (fun _ => CLOSED)) s)).
  assert (Ht : timers s1 = timers s ++ [RECONNECT_DELAY]) by reflexivity.
  destruct (snoc_is_cons (timers s) RECONNECT_DELAY) as (d & rest & E & Hlen).
  rewrite E in Ht.
  destruct (timer_event s1 d rest Ht) as (s2 & H2 & Hc & Hr2 & Hs).
  exists s1, s2. rewrite (close_event s i r H Hr).
  split; [reflexivity|]. split; [reflexivity|]. split; [reflexivity|].
  split; [reflexivity|]. split; [exact H2|]. split; [exact Hc|].
  split; [now rewrite Hr2|exact Hs].
Qed.

(** Every pending reconnection has the one fixed delay, whatever happened
    before. *)
Lemma handle_keeps_delay (e : Event) (s s' : State) :
  handle e s = Some s' ->
  Forall (fun d => d = RECONNECT_DELAY) (timers s) ->
  Forall (fun d => d = RECONNECT_DELAY) (timers s').
Proof.
  intros H F. destruct e as [i|i d|i|i| |seen]; cbn in H.
  - destruct (nth_error (sockets s) i) as [[]|]; inversion H; subst; exact F.
  - destruct (nth_error (sockets s) i) as [[]|]; inversion H; subst.
    unfold onmessage, handleWebSocketMessage.
    destruct d as [[m|]|m|]; try exact F. destruct (nonempty m); exact F.
  - destruct (nth_error (sockets s) i) as [[]|]; inversion H; subst; exact F.
  - destruct (nth_error (sockets s) i) as [[]|]; inversion H; subst; cbn;
      apply Forall_app; split; try exact F; repeat constructor.
  - destruct (timers s) as [|d rest] eqn:E; inversion H; subst. cbn.
    now inversion F.
  - inversion H; subst. destruct seen; exact F.
Qed.

Lemma run_keeps_delay (es : list Event) :
  forall s s' : State,
    run es s = Some s' ->
    Forall (fun d => d = RECONNECT_DELAY) (timers s) ->
    Forall (fun d => d = RECONNECT_DELAY) (timers s').
Proof.
  induction es as [|e es IH]; intros s s' H F; cbn in H.
  - inversion H; subst. exact F.
  - destruct (handle e s) as [s1|] eqn:E; [|discriminate].
    apply (IH s1 s' H). exact (handle_keeps_delay e s s1 E F).
Qed.

End Connection.

Section Reconnection.

Import AdvancedVoiceChat.

(** The clean-up of [AdvancedVoiceChat] reads the [wsConnection] of the
    first render, which is [null]: it closes nothing. *)
Remark unmount_closes_nothing (s : State) : unmount s = s.
Proof. reflexivity. Qed.

(** When the constructor raises, the [catch] branch sets [disconnected] and
    leaves the timers as they were. *)
Remark constructor_failure (s : State) :
  connectionStatus (state_of (connectWebSocket false s)) = disconnected /\
  timers (state_of (connectWebSocket false s)) = timers s /\
  sockets (state_of (connectWebSocket false s)) = sockets s.
Proof. repeat split. Qed.

Lemma statuses_cons (e : Event) (es : list Event) (s s' : State) :
  handle e s = Some s' ->
  statuses (e :: es) s = connectionStatus s' :: statuses es s'.
Proof.
  intros H. cbn [statuses]. now rewrite H.
Qed.

Lemma open_event (s : State) (i : nat) :
  nth_error (sockets s) i = Some CONNECTING ->
  handle (SocketOpen i) s
  = Some (onopen i (set_sockets (update_nth i (fun _ => OPEN)) s)).
Proof.
  intros H. cbn. now rewrite H.
Qed.

(** C6.  When a socket that is open (an established connection) or still
    connecting (a failed attempt) closes, the status becomes [disconnected]
    and exactly one reconnection is scheduled, with the fixed delay of 3000
    ms; when the timer fires a new attempt starts and the status is
    [connecting].  From a connecting socket the statuses visited are
    connected, disconnected, connecting.  Every timer ever pending has that
    same delay, and the real-time chat schedules its reconnection in the
    same way. *)
Theorem close_schedules_one_reconnect :
  (forall (s : State) (i : nat) (r : ReadyState),
      nth_error (sockets s) i = Some r -> r = OPEN \/ r = CONNECTING ->
      exists s1 s2,
        handle (SocketClose i) s = Some s1 /\
        connectionStatus s1 = disconnected /\
        timers s1 = timers s ++ [3000] /\
        handle TimerFires s1 = Some s2 /\
        connectionStatus s2 = connecting /\
        List.length (timers s2) = List.length (timers s) /\
        sockets s2 = sockets s1 ++ [CONNECTING]) /\
  (forall (s : State) (i : nat),
      nth_error (sockets s) i = Some CONNECTING ->
      statuses [SocketOpen i; SocketClose i; TimerFires] s
      = [connected; disconnected; connecting]) /\
  (forall (es : list Event) (s' : State),
      run es mount = Some s' -> Forall (fun d => d = 3000) (timers s')) /\
  (forall (s : RealTimeChat.State) (i : nat) (r : RealTimeChat.ReadyState),
      RealTimeChat.socket_state i s = Some r -> r <> RealTimeChat.CLOSED ->
      exists s1,
        RealTimeChat.handle (RealTimeChat.SocketClose i) s = Some s1 /\
        RealTimeChat.timers s1
        = RealTimeChat.timers s
          ++ [RealTimeChat.mkTimer 3000 (RealTimeChat.socket_closure i s)]).
Proof.
  split; [|split; [|split]].
  - intros s i r H Hr.
    assert (Hnc : r <> CLOSED) by (destruct Hr; subst; discriminate).
    destruct (close_then_timer s i r H Hnc)
      as (s1 & s2 & H1 & Hd & _ & Ht & H2 & Hc & Hl & Hs).
    exists s1, s2. repeat split; assumption.
  - intros s i H.
    set (s1 := onopen i (set_sockets (update_nth i (fun _ => OPEN)) s)).
    assert (H1 : nth_error (sockets s1) i = Some OPEN).
    { unfold s1. cbn. rewrite update_nth_same, H. reflexivity. }
    destruct (close_then_timer s1 i OPEN H1 ltac:(discriminate))
      as (s2 & s3 & E2 & Hd & _ & _ & E3 & Hc & _).
    rewrite (statuses_cons _ _ s s1 (open_event s i H)).
    rewrite (statuses_cons _ _ s1 s2 E2).
    rewrite (statuses_cons _ _ s2 s3 E3).
    rewrite Hd, Hc. reflexivity.
  - intros es s' H. apply (run_keeps_delay es mount s' H). constructor.
  - intros s i r H Hr. unfold RealTimeChat.handle. rewrite H.
    destruct r; try congruence; eexists; split; reflexivity.
Qed.

Lemma close_schedules_one_reconnect_witness :
  nth_error (sockets mount) 0 = Some CONNECTING /\
  statuses [SocketOpen 0; SocketClose 0; TimerFires] mount
  = [connected; disconnected; connecting].
Proof.
  assert (H : nth_error (sockets mount) 0 = Some CONNECTING) by reflexivity.
  split; [exact H|].
  exact (proj1 (proj2 close_schedules_one_reconnect) mount 0 H).
Defined.

(** C5 (as amended).  An explicit [close()] of the current socket cancels no
    pending timer.  When the close event of that socket arrives, the same
    [onclose] handler runs as for any other close: the status becomes
    [disconnected] and one reconnection is scheduled after the fixed delay,
    which starts a new attempt when it fires. *)
Theorem explicit_close_still_reconnects :
  (forall (s : RealTimeChat.State) (i : nat),
      RealTimeChat.wsRef s = Some i ->
      RealTimeChat.socket_state i s = Some RealTimeChat.OPEN ->
      RealTimeChat.timers (RealTimeChat.cleanup s) = RealTimeChat.timers s /\
      RealTimeChat.socket_state i (RealTimeChat.cleanup s) = Some RealTimeChat.CLOSING /\
      exists s1,
        RealTimeChat.handle (RealTimeChat.SocketClose i) (RealTimeChat.cleanup s)
        = Some s1 /\
        RealTimeChat.timers s1
        = RealTimeChat.timers s
          ++ [RealTimeChat.mkTimer 3000 (RealTimeChat.socket_closure i s)]) /\
  (forall (s : State) (i : nat),
      nth_error (sockets s) i = Some OPEN ->
      timers (cleanup (Some i) s) = timers s /\
      connectionStatus (cleanup (Some i) s) = connectionStatus s /\
      exists s1 s2,
        handle (SocketClose i) (cleanup (Some i) s) = Some s1 /\
        connectionStatus s1 = disconnected /\
        timers s1 = timers s ++ [3000] /\
        handle TimerFires s1 = Some s2 /\
        connectionStatus s2 = connecting).
Proof.
  split.
  - intros s i Hw Ho. unfold RealTimeChat.cleanup. rewrite Hw.
    unfold RealTimeChat.socket_state in Ho.
    destruct (nth_error (RealTimeChat.sockets s) i) as [k|] eqn:E; [|discriminate].
    cbn in Ho. injection Ho as Ho.
    assert (Hc : nth_error (RealTimeChat.sockets (RealTimeChat.ws_close i s)) i
                 = Some (RealTimeChat.mkSocket RealTimeChat.CLOSING
                           (RealTimeChat.closure k) (RealTimeChat.sent k))).
    { unfold RealTimeChat.ws_close. cbn. rewrite update_nth_same, E. cbn.
      now rewrite Ho. }
    split; [reflexivity|]. split.
    + unfold RealTimeChat.socket_state. now rewrite Hc.
    + unfold RealTimeChat.handle, RealTimeChat.socket_state,
        RealTimeChat.socket_closure.
      rewrite Hc, E. cbn. eexists. split; reflexivity.
  - intros s i H.
    assert (Hc : nth_error (sockets (cleanup (Some i) s)) i = Some CLOSING).
    { cbn. rewrite update_nth_same, H. reflexivity. }
    split; [reflexivity|]. split; [reflexivity|].
    destruct (close_then_timer (cleanup (Some i) s) i CLOSING Hc ltac:(discriminate))
      as (s1 & s2 & H1 & Hd & _ & Ht & H2 & Hcg & _).
    exists s1, s2. repeat split; assumption.
Qed.

End Reconnection.

Lemma explicit_close_still_reconnects_witness :
  RealTimeChat.wsRef Scenario.online = Some 0 /\
  RealTimeChat.socket_state 0 Scenario.online = Some RealTimeChat.OPEN /\
  exists s1,
    RealTimeChat.handle (RealTimeChat.SocketClose 0) (RealTimeChat.cleanup Scenario.online)
    = Some s1 /\
    RealTimeChat.timers s1 = [RealTimeChat.mkTimer 3000 0].
Proof.
  assert (Hw : RealTimeChat.wsRef Scenario.online = Some 0) by reflexivity.
  assert (Ho : RealTimeChat.socket_state 0 Scenario.online = Some RealTimeChat.OPEN)
    by reflexivity.
  split; [exact Hw|]. split; [exact Ho|].
  destruct (proj1 explicit_close_still_reconnects Scenario.online 0 Hw Ho)
    as (_ & _ & s1 & H1 & Ht).
  exists s1. split; [exact H1|exact Ht].
Defined.

(** C5 as stated fails: after the clean-up has closed the open socket, its
    close event schedules a reconnection and the timer opens a new socket;
    in [AdvancedVoiceChat] the status goes on to [connecting] after an
    explicit close of the open socket. *)
Lemma reconnect_after_explicit_close :
  option_map (fun s => map RealTimeChat.readyState (RealTimeChat.sockets s))
    (RealTimeChat.run [RealTimeChat.SocketClose 0; RealTimeChat.TimerFires]
       (RealTimeChat.cleanup Scenario.online))
  = Some [RealTimeChat.CLOSED; RealTimeChat.CONNECTING] /\
  AdvancedVoiceChat.statuses
    [AdvancedVoiceChat.SocketOpen 0; AdvancedVoiceChat.Teardown (Some 0);
     AdvancedVoiceChat.SocketClose 0; AdvancedVoiceChat.TimerFires]
    AdvancedVoiceChat.mount
  = [AdvancedVoiceChat.connected; AdvancedVoiceChat.connected;
     AdvancedVoiceChat.disconnected; AdvancedVoiceChat.connecting].
Proof. vm_compute. split; reflexivity. Qed.

(** ** Model selection *)

Section PolicyFacts.

Import AdvancedVoiceChat ModelSelection.

Variable cost_class : ModelInfo -> nat.
Variable throughput : ModelInfo -> Q.

Abbreviation better := (better cost_class throughput).
Abbreviation not_above := (not_above cost_class throughput).
Abbreviation best := (best cost_class throughput).

Lemma not_better_not_above (mode : ConversationMode) (a b : ModelInfo) :
  better mode a b = false -> not_above mode a b.
Proof.
  unfold ModelSelection.better, ModelSelection.not_above.
  destruct (Nat.compare_spec (rating mode a) (rating mode b)) as [E|L|G];
    try discriminate.
  - destruct (Qcompare_spec (throughput a) (throughput b)) as [QE|QL|QG];
      try discriminate; intros H.
    + apply Nat.ltb_ge in H. split; [lia|]. intros _. split; [|auto].
      rewrite QE. apply Qle_refl.
    + split; [lia|]. intros _. split; [now apply Qlt_le_weak|].
      intros QE. rewrite QE in QL. now apply Qlt_irrefl in QL.
  - intros _. split; [lia|]. intros E. lia.
Qed.

Lemma better_not_above (mode : ConversationMode) (a b : ModelInfo) :
  better mode a b = true -> not_above mode b a.
Proof.
  unfold ModelSelection.better, ModelSelection.not_above.
  destruct (Nat.compare_spec (rating mode a) (rating mode b)) as [E|L|G];
    try discriminate.
  - destruct (Qcompare_spec (throughput a) (throughput b)) as [QE|QL|QG];
      try discriminate; intros H.
    + apply Nat.ltb_lt in H. split; [lia|]. intros _. split.
      * rewrite QE. apply Qle_refl.
      * intros _. lia.
    + split; [lia|]. intros _. split; [now apply Qlt_le_weak|].
      intros QE. rewrite QE in QG. now apply Qlt_irrefl in QG.
  - intros _. split; [lia|]. intros E. lia.
Qed.

Lemma not_above_refl (mode : ConversationMode) (a : ModelInfo) : not_above mode a a.
Proof.
  split; [lia|]. intros _. split; [apply Qle_refl|]. intros _. lia.
Qed.

Lemma not_above_trans (mode : ConversationMode) (a b c : ModelInfo) :
  not_above mode a b -> not_above mode b c -> not_above mode a c.
Proof.
  intros [R1 T1] [R2 T2]. split; [lia|]. intros E.
  destruct (T1 ltac:(lia)) as [Q1 C1]. destruct (T2 ltac:(lia)) as [Q2 C2].
  split; [exact (Qle_trans _ _ _ Q1 Q2)|].
  intros QE.
  assert (Qab : (throughput a == throughput b)%Q).
  { apply Qle_antisym; [exact Q1|]. rewrite QE. exact Q2. }
  assert (Qbc : (throughput b == throughput c)%Q).
  { rewrite <- Qab. exact QE. }
  specialize (C1 Qab). specialize (C2 Qbc). lia.
Qed.

(** [best] returns a listed model that no listed model is preferred to. *)
Lemma best_is_maximal (mode : ConversationMode) (rest : list ModelInfo) :
  forall cur : ModelInfo,
    In (best mode cur rest) (cur :: rest) /\
    forall m, In m (cur :: rest) -> not_above mode m (best mode cur rest).
Proof.
  induction rest as [|x rest IH]; intros cur.
  - cbn. split; [now left|]. intros m [<-|[]]. apply not_above_refl.
  - cbn [ModelSelection.best].
    destruct (IH (if better mode x cur then x else cur)) as [Hin Hmax].
    assert (Hcur : not_above mode cur (if better mode x cur then x else cur)).
    { destruct (better mode x cur) eqn:E.
      - now apply better_not_above.
      - apply not_above_refl. }
    assert (Hx : not_above mode x (if better mode x cur then x else cur)).
    { destruct (better mode x cur) eqn:E.
      - apply not_above_refl.
      - now apply not_better_not_above. }
    split.
    + destruct Hin as [Hin|Hin]; [|now right; right].
      destruct (better mode x cur); [right; left|left]; exact Hin.
    + intros m [<-|[<-|Hm]].
      * eapply not_above_trans; [exact Hcur|]. apply Hmax. now left.
      * eapply not_above_trans; [exact Hx|]. apply Hmax. now left.
      * apply Hmax. now right.
Qed.

Lemma select_auto_maximal (mode : ConversationMode) (models : list ModelInfo)
    (r : ModelInfo) :
  select cost_class throughput None mode models = inr r ->
  In r models /\ available r = true /\
  forall m, In m models -> available m = true -> not_above mode m r.
Proof.
  unfold select, select_auto.
  destruct (filter available models) as [|c rest] eqn:F; [discriminate|].
  intros H. injection H as <-.
  destruct (best_is_maximal mode rest c) as [Hin Hmax].
  rewrite <- F in Hin.
  apply filter_In in Hin. destruct Hin as [Hin Hav].
  split; [exact Hin|]. split; [exact Hav|].
  intros m Hm Ha. apply Hmax. rewrite <- F. apply filter_In. now split.
Qed.

Lemma select_auto_total (mode : ConversationMode) (models : list ModelInfo) :
  (exists m, In m models /\ available m = true) ->
  exists r, select cost_class throughput None mode models = inr r.
Proof.
  intros (m & Hm & Ha). unfold select, select_auto.
  destruct (filter available models) as [|c rest] eqn:F.
  - assert (Hin : In m (filter available models)) by (apply filter_In; now split).
    rewrite F in Hin. destruct Hin.
  - eexists. reflexivity.
Qed.

Lemma select_pinned (id : string) (mode : ConversationMode) (models : list ModelInfo)
    (r : ModelInfo) :
  select cost_class throughput (Some id) mode models = inr r ->
  name r = id /\ In r models /\ available r = true.
Proof.
  unfold select.
  destruct (find _ models) as [m|] eqn:F; [|discriminate].
  intros H. injection H as <-.
  apply find_some in F. destruct F as [Hin Hb].
  apply andb_true_iff in Hb. destruct Hb as [Hn Ha].
  apply String.eqb_eq in Hn. now repeat split.
Qed.

End PolicyFacts.

Section Selection.

Import AdvancedVoiceChat ModelSelection.

Variable cost_class : ModelInfo -> nat.
Variable throughput : ModelInfo -> Q.

Abbreviation select := (select cost_class throughput).

(** What the policy of section 4.5 yields.  With no pin, Speed mode returns
    an available model of maximum speed rating, and Quality mode one of
    maximum quality rating; among models of equal rating the one returned
    has the highest tokens per second, and among those of equal throughput
    the lowest resource cost class.  A model is returned whenever one is
    available.  A pin decides the result whatever the mode and the
    ratings. *)
Lemma policy_selects_best_available :
  forall models : list ModelInfo,
    (forall r, select None speed models = inr r ->
       In r models /\ available r = true /\
       forall m, In m models -> available m = true ->
         speed_rating m <= speed_rating r /\
         (speed_rating m = speed_rating r ->
            (throughput m <= throughput r)%Q /\
            ((throughput m == throughput r)%Q -> cost_class r <= cost_class m))) /\
    (forall r, select None quality models = inr r ->
       In r models /\ available r = true /\
       forall m, In m models -> available m = true ->
         quality_rating m <= quality_rating r /\
         (quality_rating m = quality_rating r ->
            (throughput m <= throughput r)%Q /\
            ((throughput m == throughput r)%Q -> cost_class r <= cost_class m))) /\
    (forall mode, (exists m, In m models /\ available m = true) ->
       exists r, select None mode models = inr r) /\
    (forall id mode mode',
       select (Some id) mode models = select (Some id) mode' models) /\
    (forall id mode r, select (Some id) mode models = inr r ->
       name r = id /\ In r models /\ available r = true) /\
    (forall id mode m, In m models -> name m = id -> available m = true ->
       exists r, select (Some id) mode models = inr r).
Proof.
  intros models.
  split; [|split; [|split; [|split; [|split]]]].
  - intros r H. exact (select_auto_maximal cost_class throughput speed models r H).
  - intros r H. exact (select_auto_maximal cost_class throughput quality models r H).
  - intros mode H. exact (select_auto_total cost_class throughput mode models H).
  - reflexivity.
  - intros id mode r H. exact (select_pinned cost_class throughput id mode models r H).
  - intros id mode m Hin Hn Ha. unfold ModelSelection.select.
    destruct (find _ models) as [r|] eqn:F; [now exists r|].
    apply (find_none _ _ F) in Hin. cbn in Hin.
    rewrite Ha, andb_true_r in Hin. apply String.eqb_neq in Hin. contradiction.
Qed.

End Selection.

(** Speed mode picks the faster of the two models of the scenarios. *)
Example speed_mode_picks_fast :
  ModelSelection.select Scenario.ram_class Scenario.observed_tps None
    AdvancedVoiceChat.speed [Scenario.deep; Scenario.fast] = inr Scenario.fast /\
  AdvancedVoiceChat.speed_rating Scenario.deep
  <= AdvancedVoiceChat.speed_rating Scenario.fast.
Proof.
  assert (H : ModelSelection.select Scenario.ram_class Scenario.observed_tps None
                AdvancedVoiceChat.speed [Scenario.deep; Scenario.fast]
              = inr Scenario.fast) by reflexivity.
  split; [exact H|].
  destruct (policy_selects_best_available Scenario.ram_class Scenario.observed_tps
              [Scenario.deep; Scenario.fast]) as (Hs & _).
  destruct (Hs Scenario.fast H) as (_ & _ & Hmax).
  exact (proj1 (Hmax Scenario.deep (or_introl eq_refl) eq_refl)).
Qed.

(** The tie of the specification's third scenario: both models score 7 in
    Balanced mode and were observed at the same throughput, so the lower
    cost class decides, whatever the order of the list. *)
Example balanced_tie_falls_back_to_cost :
  ModelSelection.select Scenario.ram_class Scenario.observed_tps None
    AdvancedVoiceChat.balanced [Scenario.deep; Scenario.fast] = inr Scenario.fast /\
  ModelSelection.select Scenario.ram_class Scenario.observed_tps None
    AdvancedVoiceChat.balanced [Scenario.fast; Scenario.deep] = inr Scenario.fast.
Proof. split; reflexivity. Qed.

(** ** The pin in the chat request *)

Section Pin.

Import AdvancedVoiceChat Settings ModelSelection PinnedTurn.

(** The request of a non-blank [sendMessage] carries the mode and the model
    preference of the render that defined the closure, whatever the state
    is at the call; the call changes neither the mode nor the switch. *)
Lemma sendMessage_request (seen : Render) (s : State) (text : string) (c : ChatOutcome) :
  nonempty (trim text) = true ->
  requests (state_of (sendMessage seen text c s))
  = requests s ++ [mkChatRequest text (seen_mode seen) (preference seen)] /\
  autoModelSwitch (state_of (sendMessage seen text c s)) = autoModelSwitch s /\
  conversationMode (state_of (sendMessage seen text c s)) = conversationMode s.
Proof.
  intros H. unfold sendMessage. rewrite H. cbn [negb].
  unfold try_finally, try_catch, bind, gets, modify, throw, ret, state_of.
  cbn. destruct c as [|response [st|] info]; cbn; repeat split; reflexivity.
Qed.

(** In the render of a state the preference is the pin of that state. *)
Lemma preference_render (s : State) : preference (render s) = pin_of s.
Proof. reflexivity. Qed.

(** C8.  A pin does not reach every chat request made while it is set.  The
    learner records once, starts a second recording and, while it runs,
    picks phi3:mini, turns automatic switching off and asks for Quality
    mode.  When that recording stops the pin is phi3:mini and the mode
    Quality, yet the chat request for the transcribed text carries Balanced
    mode and no model preference, those of the render in which the
    recording was started: the back end is left to choose by its policy.
    Its reply, made with gemma2:2b, then replaces the pinned model, so the
    next request from the controls pins gemma2:2b although the learner
    never chose it and never set automatic switching again. *)
Theorem pin_set_while_recording_is_not_sent :
  audioChunks first_recording = [7] /\ requests first_recording = [] /\
  pin_of pinned_while_recording = Some "phi3:mini" /\
  conversationMode pinned_while_recording = quality /\
  requests second_recording = [mkChatRequest "hello" balanced None] /\
  autoModelSwitch second_recording = false /\
  pin_of second_recording = Some "gemma2:2b" /\
  requests (state_of (sendMessage (render second_recording) "again" reply
                        second_recording))
  = [mkChatRequest "hello" balanced None;
     mkChatRequest "again" quality (Some "gemma2:2b")].
Proof. vm_compute. repeat split; reflexivity. Qed.

(** The same holds of every state and reply: a request sent by the closure
    of an earlier render ignores the pin and the mode in force, and a reply
    that carries [stats] moves the pin to the model that answered. *)
Lemma stale_request_ignores_pin :
  forall (s : State) (seen : Render) (text : string) (c : ChatOutcome),
    nonempty (trim text) = true ->
    requests (state_of (sendMessage seen text c s))
    = requests s ++ [mkChatRequest text (seen_mode seen) (preference seen)] /\
    pin_of (state_of (sendMessage seen text c s))
    = match c with
      | chat_body _ (Some st) _ =>
          if autoModelSwitch s then None else Some (model_used st)
      | _ => pin_of s
      end.
Proof.
  intros s seen text c H.
  split; [exact (proj1 (sendMessage_request seen s text c H))|].
  unfold sendMessage. rewrite H. cbn [negb].
  unfold try_finally, try_catch, bind, gets, modify, throw, ret, state_of, pin_of.
  cbn. destruct c as [|response [st|] info]; cbn; reflexivity.
Qed.

End Pin.

(** * Further properties *)

(** ** Trimming *)

Section Trim.

Import History.

Lemma append_assoc (a b c : string) :
  ((a ++ b) ++ c)%string = (a ++ (b ++ c))%string.
Proof.
  induction a as [|x r IH]; cbn; [reflexivity|]. now rewrite IH.
Qed.

Lemma append_empty_r (s : string) : (s ++ "")%string = s.
Proof.
  induction s as [|c r IH]; cbn; [reflexivity|]. now rewrite IH.
Qed.

Lemma rev_string_rev_string (s a b : string) :
  rev_string (rev_string s a) b = rev_string a (s ++ b)%string.
Proof.
  revert a. induction s as [|c r IH]; intros a; cbn; [reflexivity|].
  now rewrite IH.
Qed.

Lemma rev_string_acc (s acc : string) :
  rev_string s acc = (rev_string s "" ++ acc)%string.
Proof.
  revert acc. induction s as [|c r IH]; intros acc; cbn; [reflexivity|].
  rewrite (IH (String c acc)), (IH (String c "")).
  rewrite append_assoc. reflexivity.
Qed.

Lemma rev_string_append (a b acc : string) :
  rev_string (a ++ b)%string acc = rev_string b (rev_string a acc).
Proof.
  revert acc. induction a as [|c r IH]; intros acc; cbn; [reflexivity|].
  apply IH.
Qed.

Lemma rev_string_involutive (s : string) :
  rev_string (rev_string s "") "" = s.
Proof.
  rewrite rev_string_rev_string. cbn. apply append_empty_r.
Qed.

Lemma trimStart_suffix (s : string) :
  exists w, s = (w ++ trimStart s)%string.
Proof.
  induction s as [|c r [w IH]]; cbn.
  - now exists "".
  - destruct (is_space c).
    + exists (String c w). cbn. now rewrite <- IH.
    + now exists "".
Qed.

Lemma trimStart_starts (s : string) : starts_with_space (trimStart s) = false.
Proof.
  induction s as [|c r IH]; cbn; [reflexivity|].
  destruct (is_space c) eqn:E; [exact IH|]. cbn. exact E.
Qed.

Lemma trimStart_fixed (s : string) :
  starts_with_space s = false -> trimStart s = s.
Proof.
  destruct s as [|c r]; cbn; [reflexivity|]. now intros ->.
Qed.

Lemma trimEnd_prefix (s : string) :
  exists w, s = (trimEnd s ++ w)%string.
Proof.
  unfold trimEnd.
  destruct (trimStart_suffix (rev_string s "")) as [w Hw].
  exists (rev_string w "").
  rewrite <- (rev_string_involutive s) at 1.
  rewrite Hw at 1. rewrite rev_string_append.
  apply rev_string_acc.
Qed.

Lemma trimEnd_starts (s : string) :
  starts_with_space s = false -> starts_with_space (trimEnd s) = false.
Proof.
  intros H. destruct (trimEnd_prefix s) as [w Hw].
  destruct (trimEnd s) as [|c r]; [reflexivity|].
  rewrite Hw in H. exact H.
Qed.

Lemma trimEnd_idempotent (s : string) : trimEnd (trimEnd s) = trimEnd s.
Proof.
  unfold trimEnd. rewrite rev_string_involutive.
  rewrite (trimStart_fixed (trimStart _)); [reflexivity|].
  apply trimStart_starts.
Qed.

(** [trim] is idempotent: trimmed text has no white space left at either
    end. *)
Lemma trim_idempotent (s : string) : trim (trim s) = trim s.
Proof.
  unfold trim.
  rewrite (trimStart_fixed (trimEnd (trimStart s))).
  - apply trimEnd_idempotent.
  - apply trimEnd_starts, trimStart_starts.
Qed.

Lemma trim_not_blank (s : string) :
  nonempty (trim s) = true -> History.not_blank (trim s) = true.
Proof.
  unfold History.not_blank. now rewrite trim_idempotent.
Qed.

End Trim.

(** ** Runs of the real-time chat *)

Section ChatRuns.

Import RealTimeChat History.

(** The state [sendMessage] leaves behind. *)
Lemma sendMessage_state (text : string) (s : State) :
  state_of (sendMessage text s)
  = let s1 := setIsProcessing true
                (setInputText ""
                   (setMessages (fun prev => prev ++ [mkMessage user text None]) s)) in
    match ws_is_open s with
    | Some i => ws_send i (mkFrame "chat" text) s1
    | None => s1
    end.
Proof.
  unfold sendMessage, bind, modify, gets, ret, state_of. cbn.
  assert (E : ws_is_open
                (setIsProcessing true
                   (setInputText ""
                      (setMessages (fun prev => prev ++ [mkMessage user text None]) s)))
              = ws_is_open s) by reflexivity.
  rewrite E. destruct (ws_is_open s); reflexivity.
Qed.

Lemma handleTextSubmit_state (s : State) :
  state_of (handleTextSubmit s)
  = if nonempty (trim (inputText s))
    then state_of (sendMessage (trim (inputText s)) s)
    else s.
Proof.
  unfold handleTextSubmit, bind, gets, state_of. cbn.
  destruct (nonempty (trim (inputText s))); reflexivity.
Qed.

Lemma sendMessage_returns (text : string) (s : State) :
  result (sendMessage text s) = inr tt.
Proof.
  unfold sendMessage, bind, modify, gets, ret, result. cbn.
  destruct (ws_is_open _); reflexivity.
Qed.

Lemma processAudio_resume_state (t : Transcription) (s : State) :
  state_of (processAudio_resume t s)
  = match t with
    | fetch_rejected | bad_body =>
        setIsProcessing false
          (report (console_error "Erro no processamento de áudio:") s)
    | http_error => s
    | body_text x =>
        if nonempty (trim x) then state_of (sendMessage x s)
        else setIsProcessing false s
    end.
Proof.
  destruct t as [| | |x]; try reflexivity.
  unfold processAudio_resume, try_catch.
  destruct (nonempty (trim x)); [|reflexivity].
  pose proof (sendMessage_returns x s) as R. unfold result in R.
  destruct (sendMessage x s) as [[e|u] s']; [discriminate|reflexivity].
Qed.

Lemma startRecording_state (granted : bool) (s : State) :
  state_of (startRecording granted s)
  = if granted
    then setIsRecording true
           (set_mediaRecorderRef (Some (List.length (recorders s)))
              (set_recorders (fun l => l ++ [rec_recording]) s))
    else report (alert "Erro ao acessar microfone. Verifique as permissões.")
           (report (console_error "Erro ao acessar microfone:") s).
Proof.
  destruct granted; reflexivity.
Qed.

Lemma stopRecording_state (s : State) :
  state_of (stopRecording s)
  = match mediaRecorderRef s, isRecording s with
    | Some i, true =>
        match nth_error (recorders s) i with
        | Some rec_recording =>
            setIsRecording false (set_recorders (update_nth i (fun _ => rec_stopping)) s)
        | _ => s
        end
    | _, _ => s
    end.
Proof.
  unfold stopRecording, recorder_stop, bind, gets, modify, throw, ret, state_of.
  cbn. destruct (mediaRecorderRef s) as [i|]; cbn; [|reflexivity].
  destruct (isRecording s); cbn; [|reflexivity].
  destruct (nth_error (recorders s) i) as [[| | |]|]; reflexivity.
Qed.

(** A property of states that every handler and the effect keep holds along
    every run. *)
Lemma run_preserves (P : State -> Prop) :
  (forall e s s', handle e s = Some s' -> P s -> P s') ->
  (forall n s, P s -> P (rerun_effect n s)) ->
  forall es s s', run es s = Some s' -> P s -> P s'.
Proof.
  intros Hh Hr. induction es as [|e es IH]; intros s s' H Hs; cbn in H.
  - now injection H as <-.
  - unfold step in H. destruct (handle e s) as [s0|] eqn:E; [|discriminate].
    cbn in H. apply (IH _ _ H). apply Hr. exact (Hh e s s0 E Hs).
Qed.

End ChatRuns.

Section ChatEffects.

Import RealTimeChat History.

Lemma map_update_nth {A B : Type} (g : A -> B) (f : A -> A) (h : B -> B)
    (i : nat) (l : list A) :
  (forall a, g (f a) = h (g a)) ->
  map g (update_nth i f l) = update_nth i h (map g l).
Proof.
  intros H. revert i. induction l as [|x r IH]; intros [|j]; cbn; auto.
  - now rewrite H.
  - now rewrite IH.
Qed.

Lemma update_nth_id {A : Type} (i : nat) (l : list A) :
  update_nth i (fun a => a) l = l.
Proof.
  revert i. induction l as [|x r IH]; intros [|j]; cbn; auto.
  now rewrite IH.
Qed.

(** Changing the ready state of a socket leaves every outbox alone. *)
Lemma outboxes_same_sent (f : Socket -> Socket) (i : nat) (s : State) :
  (forall k, sent (f k) = sent k) ->
  outboxes (set_sockets (update_nth i f) s) = outboxes s.
Proof.
  intros H. unfold outboxes. cbn.
  rewrite (map_update_nth sent f (fun l => l) i (sockets s) H).
  apply update_nth_id.
Qed.

Lemma sendMessage_effect (t : string) (s : State) :
  not_blank t = true -> Effect s (state_of (sendMessage t s)).
Proof.
  intros Hb. rewrite sendMessage_state. cbv zeta.
  destruct (ws_is_open s) as [i|] eqn:E.
  - apply (eff_sent _ _ t i); try reflexivity; [exact Hb|].
    unfold outboxes. cbn. apply map_update_nth. reflexivity.
  - apply (eff_kept _ _ t); try reflexivity. exact Hb.
Qed.

Lemma onmessage_effect (n : nat) (d : Inbound) (s : State) :
  Effect s (onmessage n d s).
Proof.
  destruct d as [c pt|ty]; [|now apply eff_quiet].
  unfold onmessage. destruct pt as [q|].
  - destruct (truthy (Some q)).
    + apply (eff_reply _ _ c (Some q)); try reflexivity. now right.
    + apply (eff_reply _ _ c (Some q)); try reflexivity. now left.
  - apply (eff_reply _ _ c None); try reflexivity. now left.
Qed.

Lemma outboxes_connect (n : nat) (s : State) :
  outboxes (connectWebSocket n s) = outboxes s ++ [[]].
Proof.
  unfold outboxes, connectWebSocket, set_wsRef, set_sockets. cbn [sockets].
  now rewrite map_app.
Qed.

(** What each handler does to the conversation and the outboxes. *)
Lemma handle_effect (e : Event) (s s' : State) :
  handle e s = Some s' -> Effect s s'.
Proof.
  intros H. destruct e as [g|t| |i|i t|i|i d|i| ]; cbn [handle] in H.
  - destruct (isProcessing s); [discriminate|].
    destruct (isRecording s); injection H as <-.
    + rewrite stopRecording_state.
      destruct (mediaRecorderRef s) as [i|]; [|now apply eff_quiet].
      destruct (isRecording s); [|now apply eff_quiet].
      destruct (nth_error (recorders s) i) as [[| | |]|]; now apply eff_quiet.
    + rewrite startRecording_state. destruct g; now apply eff_quiet.
  - destruct (isProcessing s); [discriminate|]. injection H as <-.
    now apply eff_quiet.
  - destruct (isProcessing s); [discriminate|]. injection H as <-.
    rewrite handleTextSubmit_state.
    destruct (nonempty (trim (inputText s))) eqn:E; [|now apply eff_quiet].
    apply sendMessage_effect. now apply trim_not_blank.
  - destruct (nth_error (recorders s) i) as [[| | |]|]; try discriminate.
    injection H as <-. now apply eff_quiet.
  - destruct (nth_error (recorders s) i) as [[| | |]|]; try discriminate.
    injection H as <-. rewrite processAudio_resume_state.
    destruct t as [| | |x]; try now apply eff_quiet.
    destruct (nonempty (trim x)) eqn:E; [|now apply eff_quiet].
    destruct (sendMessage_effect x s E) as [A B C|A B C|u Hu A B C|u j Hu A B C|c pt A B C].
    + now apply eff_quiet.
    + now apply eff_connect.
    + now apply (eff_kept _ _ u).
    + now apply (eff_sent _ _ u j).
    + now apply (eff_reply _ _ c pt).
  - destruct (socket_state i s) as [[| | |]|]; try discriminate.
    injection H as <-. apply eff_quiet; try reflexivity.
    apply (outboxes_same_sent _ i s). reflexivity.
  - destruct (socket_state i s) as [[| | |]|]; try discriminate.
    injection H as <-. apply onmessage_effect.
  - destruct (socket_state i s) as [[| | |]|]; try discriminate;
      injection H as <-; apply eff_quiet; try reflexivity;
      apply (outboxes_same_sent _ i s); reflexivity.
  - destruct (timers s) as [|t rest]; [discriminate|]. injection H as <-.
    apply eff_connect; try reflexivity.
    rewrite outboxes_connect. reflexivity.
Qed.

(** The effect re-run touches no message and no frame. *)
Lemma rerun_effect_effect (n : nat) (s : State) : Effect s (rerun_effect n s).
Proof.
  unfold rerun_effect. destruct (totalMessages s =? n); [now apply eff_quiet|].
  apply eff_connect.
  - unfold cleanup. now destruct (wsRef s).
  - unfold cleanup. now destruct (wsRef s).
  - rewrite outboxes_connect. f_equal.
    unfold cleanup. destruct (wsRef s) as [i|]; [|reflexivity].
    apply (outboxes_same_sent _ i s). intros k. now destruct (readyState k).
Qed.

End ChatEffects.

Section ChatInvariants.

Import RealTimeChat History.

Lemma run_effect_preserves (P : State -> Prop) :
  (forall s s', Effect s s' -> P s -> P s') ->
  forall es s s', run es s = Some s' -> P s -> P s'.
Proof.
  intros H. apply run_preserves.
  - intros e s s' E. apply H. exact (handle_effect e s s' E).
  - intros n s. apply H. apply rerun_effect_effect.
Qed.

Lemma effect_messages (s s' : State) :
  Effect s s' -> exists l, messages s' = messages s ++ l.
Proof.
  intros [A _ _|A _ _|t _ A _ _|t i _ A _ _|c pt A _ _].
  - exists []. now rewrite app_nil_r.
  - exists []. now rewrite app_nil_r.
  - now exists [mkMessage user t None].
  - now exists [mkMessage user t None].
  - now exists [mkMessage assistant c pt].
Qed.

(** X1.  The conversation of the real-time chat is append-only: whatever
    events occur, the messages present before are still there, in the same
    order, at the front of the later conversation. *)
Theorem conversation_append_only :
  forall (es : list Event) (s s' : State),
    run es s = Some s' -> exists l, messages s' = messages s ++ l.
Proof.
  intros es s s' H.
  apply (run_effect_preserves (fun x => exists l, messages x = messages s ++ l))
    with (es := es) (s := s); [|exact H|].
  - intros a b E [l Hl]. destruct (effect_messages a b E) as [l' Hl'].
    exists (l ++ l'). now rewrite Hl', Hl, app_assoc.
  - exists []. now rewrite app_nil_r.
Qed.

Lemma conversation_append_only_witness :
  run [ChangeInput "hi"; SubmitForm] Scenario.online
  = Some (state_of (sendMessage "hi" (setInputText "hi" Scenario.online))) /\
  exists l,
    messages (state_of (sendMessage "hi" (setInputText "hi" Scenario.online)))
    = messages Scenario.online ++ l.
Proof.
  assert (H : run [ChangeInput "hi"; SubmitForm] Scenario.online
              = Some (state_of (sendMessage "hi" (setInputText "hi" Scenario.online))))
    by reflexivity.
  split; [exact H|].
  exact (conversation_append_only _ _ _ H).
Defined.

Lemma answered_app (s : State) (l : list Message) (m : list Message) :
  messages s = l ++ m ->
  answered s
  = List.length (filter (fun x => match role x with assistant => true | user => false end) l)
    + List.length (filter (fun x => match role x with assistant => true | user => false end) m).
Proof.
  intros H. unfold answered. now rewrite H, filter_app, length_app.
Qed.

Lemma effect_count (s s' : State) :
  Effect s s' -> totalMessages s <= answered s -> totalMessages s' <= answered s'.
Proof.
  intros [A B _|A B _|t _ A B _|t i _ A B _|c pt A B _] H.
  - unfold answered in *. rewrite A, B. exact H.
  - unfold answered in *. rewrite A, B. exact H.
  - rewrite (answered_app s' _ _ A), B. unfold answered in H. cbn. lia.
  - rewrite (answered_app s' _ _ A), B. unfold answered in H. cbn. lia.
  - rewrite (answered_app s' _ _ A). unfold answered in H. cbn.
    destruct B as [B|B]; rewrite B; lia.
Qed.

(** X2.  The count of completed turns never exceeds the number of assistant
    messages in the conversation, along any run of the mounted chat. *)
Theorem count_bounded_by_replies :
  forall (es : list Event) (s' : State),
    run es mount = Some s' -> totalMessages s' <= answered s'.
Proof.
  intros es s' H.
  apply (run_effect_preserves (fun x => totalMessages x <= answered x))
    with (es := es) (s := mount); [|exact H|].
  - exact effect_count.
  - cbn. lia.
Qed.

Lemma count_bounded_by_replies_witness :
  exists s',
    run [SocketOpen 0; SocketMessage 0 (chat_response "a" None);
         SocketMessage 0 (chat_response "b" (Some 2%float))] mount = Some s' /\
    totalMessages s' <= answered s'.
Proof.
  destruct (run [SocketOpen 0; SocketMessage 0 (chat_response "a" None);
                 SocketMessage 0 (chat_response "b" (Some 2%float))] mount)
    as [s'|] eqn:E; [|vm_compute in E; discriminate].
  exists s'. split; [reflexivity|].
  exact (count_bounded_by_replies _ s' E).
Defined.

End ChatInvariants.

Section Recorded.

Import RealTimeChat History.

Lemma frames_outboxes (s : State) : frames s = List.concat (outboxes s).
Proof.
  unfold frames, outboxes. apply flat_map_concat_map.
Qed.

Lemma concat_snoc_empty {A : Type} (l : list (list A)) : List.concat (l ++ [[]]) = List.concat l.
Proof.
  rewrite concat_app. cbn. apply app_nil_r.
Qed.

Lemma in_concat_update_nth {A : Type} (x f : A) (i : nat) (l : list (list A)) :
  In f (List.concat (update_nth i (fun o => o ++ [x]) l)) ->
  In f (List.concat l) \/ f = x.
Proof.
  revert i. induction l as [|o r IH]; intros [|j]; cbn; auto.
  - rewrite !in_app_iff. cbn. intuition auto.
  - rewrite !in_app_iff. intros [H|H]; [auto|].
    destruct (IH j H); auto.
Qed.

Lemma effect_recorded (s s' : State) :
  Effect s s' -> well_recorded s -> well_recorded s'.
Proof.
  unfold well_recorded. rewrite !frames_outboxes.
  intros [A _ C|A _ C|t Ht A _ C|t i Ht A _ C|c pt A _ C] [Hm Hf];
    rewrite A, C; try rewrite concat_snoc_empty.
  - now split.
  - now split.
  - split.
    + intros m Hin. apply in_app_iff in Hin. destruct Hin as [Hin|[<-|[]]]; auto.
    + intros f Hin. destruct (Hf f Hin) as (H1 & H2 & H3).
      repeat split; auto. apply in_app_iff. now left.
  - split.
    + intros m Hin. apply in_app_iff in Hin. destruct Hin as [Hin|[<-|[]]]; auto.
    + intros f Hin. apply in_concat_update_nth in Hin. destruct Hin as [Hin| ->].
      * destruct (Hf f Hin) as (H1 & H2 & H3).
        repeat split; auto. apply in_app_iff. now left.
      * cbn. repeat split; auto. apply in_app_iff. right. now left.
  - split.
    + intros m Hin. apply in_app_iff in Hin. destruct Hin as [Hin|[<-|[]]]; auto.
      cbn. discriminate.
    + intros f Hin. destruct (Hf f Hin) as (H1 & H2 & H3).
      repeat split; auto. apply in_app_iff. now left.
Qed.

Lemma run_recorded (es : list Event) (s' : State) :
  run es mount = Some s' -> well_recorded s'.
Proof.
  intros H.
  apply (run_effect_preserves well_recorded) with (es := es) (s := mount);
    [exact effect_recorded|exact H|].
  split; intros x [].
Qed.

(** X3.  The real-time chat never records or dispatches a blank message:
    along any run, every user message in the conversation and every frame
    handed to a socket has content that is not empty after trimming, and
    every frame is of type "chat". *)
Theorem nothing_blank_recorded_or_sent :
  forall (es : list Event) (s' : State),
    run es mount = Some s' ->
    (forall m, In m (messages s') -> role m = user -> not_blank (content m) = true) /\
    (forall f, In f (frames s') ->
       frame_type f = "chat" /\ not_blank (frame_content f) = true).
Proof.
  intros es s' H. destruct (run_recorded es s' H) as [Hm Hf].
  split; [exact Hm|]. intros f Hin. destruct (Hf f Hin) as (H1 & H2 & _).
  now split.
Qed.

Lemma nothing_blank_recorded_or_sent_witness :
  exists s',
    run [SocketOpen 0; ChangeInput "  hi  "; SubmitForm] mount = Some s' /\
    (forall f, In f (frames s') ->
       frame_type f = "chat" /\ not_blank (frame_content f) = true).
Proof.
  destruct (run [SocketOpen 0; ChangeInput "  hi  "; SubmitForm] mount)
    as [s'|] eqn:E; [|vm_compute in E; discriminate].
  exists s'. split; [reflexivity|].
  exact (proj2 (nothing_blank_recorded_or_sent _ s' E)).
Defined.

(** X4.  Whatever the real-time chat has handed to a socket is in the
    conversation: along any run, the content of every dispatched frame is
    the content of a recorded user message. *)
Theorem dispatched_frames_are_recorded :
  forall (es : list Event) (s' : State) (f : Frame),
    run es mount = Some s' -> In f (frames s') ->
    In (mkMessage user (frame_content f) None) (messages s').
Proof.
  intros es s' f H Hin. destruct (run_recorded es s' H) as [_ Hf].
  now destruct (Hf f Hin) as (_ & _ & H3).
Qed.

Lemma dispatched_frames_are_recorded_witness :
  let s' := state_of (sendMessage "hi" (setInputText "hi" Scenario.online)) in
  run [SocketOpen 0; ChangeInput "hi"; SubmitForm] mount = Some s' /\
  In (mkFrame "chat" "hi") (frames s') /\
  In (mkMessage user "hi" None) (messages s').
Proof.
  cbv zeta.
  assert (H : run [SocketOpen 0; ChangeInput "hi"; SubmitForm] mount
              = Some (state_of (sendMessage "hi" (setInputText "hi" Scenario.online))))
    by reflexivity.
  assert (Hin : In (mkFrame "chat" "hi")
                  (frames (state_of (sendMessage "hi"
                                       (setInputText "hi" Scenario.online)))))
    by (left; reflexivity).
  split; [exact H|]. split; [exact Hin|].
  exact (dispatched_frames_are_recorded _ _ _ H Hin).
Defined.

End Recorded.

Section Reconnects.

Import RealTimeChat History.

Lemma connect_not_open (n : nat) (s : State) :
  ws_is_open (connectWebSocket n s) = None /\
  wsRef (connectWebSocket n s) = Some (List.length (sockets s)).
Proof.
  unfold ws_is_open, connectWebSocket. cbn.
  now rewrite nth_error_snoc.
Qed.

Lemma cleanup_length (s : State) :
  List.length (sockets (cleanup s)) = List.length (sockets s).
Proof.
  unfold cleanup. destruct (wsRef s) as [i|]; [|reflexivity].
  cbn. apply update_nth_length.
Qed.

(** X5.  Every counted reply (truthy [processing_time]) makes the socket
    effect run again: the current socket is closed and a new one, still
    connecting, takes its place in [wsRef], so a message sent before the new
    socket opens is transmitted to no socket.  A reply that is not counted
    leaves the sockets and [wsRef] as they are. *)
Theorem counted_reply_reconnects :
  forall (s : State) (i : nat) (c : string) (q : float),
    socket_state i s = Some OPEN -> truthy (Some q) = true ->
    exists s',
      step (SocketMessage i (chat_response c (Some q))) s = Some s' /\
      totalMessages s' = totalMessages s + 1 /\
      List.length (sockets s') = List.length (sockets s) + 1 /\
      wsRef s' = Some (List.length (sockets s)) /\
      socket_state (List.length (sockets s)) s' = Some CONNECTING /\
      (forall t, outboxes (state_of (sendMessage t s')) = outboxes s') /\
      step (SocketMessage i (chat_response c None)) s
      = Some (onmessage (socket_closure i s) (chat_response c None) s) /\
      sockets (onmessage (socket_closure i s) (chat_response c None) s) = sockets s /\
      wsRef (onmessage (socket_closure i s) (chat_response c None) s) = wsRef s.
Proof.
  intros s i c q Ho Hq.
  set (s0 := onmessage (socket_closure i s) (chat_response c (Some q)) s).
  assert (Ht : totalMessages s0 = totalMessages s + 1).
  { unfold s0, onmessage. now rewrite Hq. }
  assert (Hs : sockets s0 = sockets s).
  { unfold s0, onmessage. now rewrite Hq. }
  exists (connectWebSocket (totalMessages s0) (cleanup s0)).
  split; [|split; [|split; [|split; [|split; [|split; [|split; [|split]]]]]]].
  - unfold step, handle. rewrite Ho. cbn [option_map]. fold s0.
    unfold rerun_effect. rewrite Ht.
    destruct (Nat.eqb_spec (totalMessages s + 1) (totalMessages s)); [lia|].
    reflexivity.
  - unfold cleanup. destruct (wsRef s0); exact Ht.
  - unfold connectWebSocket, set_wsRef, set_sockets. cbn [sockets].
    rewrite length_app, cleanup_length, Hs. reflexivity.
  - destruct (connect_not_open (totalMessages s0) (cleanup s0)) as [_ H].
    now rewrite H, cleanup_length, Hs.
  - rewrite <- Hs, <- (cleanup_length s0).
    unfold socket_state, connectWebSocket, set_wsRef, set_sockets. cbn [sockets].
    rewrite nth_error_snoc. reflexivity.
  - intros t. rewrite sendMessage_state. cbv zeta.
    destruct (connect_not_open (totalMessages s0) (cleanup s0)) as [H _].
    now rewrite H.
  - unfold step, handle. rewrite Ho. cbn [option_map]. unfold rerun_effect.
    assert (E : totalMessages (onmessage (socket_closure i s) (chat_response c None) s)
                = totalMessages s) by reflexivity.
    now rewrite E, Nat.eqb_refl.
  - reflexivity.
  - reflexivity.
Qed.

Lemma counted_reply_reconnects_witness :
  socket_state 0 Scenario.online = Some OPEN /\
  exists s',
    step (SocketMessage 0 (chat_response "ok" (Some 2%float))) Scenario.online = Some s' /\
    wsRef s' = Some 1 /\ socket_state 1 s' = Some CONNECTING.
Proof.
  assert (Ho : socket_state 0 Scenario.online = Some OPEN) by reflexivity.
  assert (Hq : truthy (Some 2%float) = true) by reflexivity.
  split; [exact Ho|].
  destruct (counted_reply_reconnects Scenario.online 0 "ok" 2%float Ho Hq)
    as (s' & H1 & _ & _ & H4 & H5 & _).
  exists s'. split; [exact H1|]. split; [exact H4|exact H5].
Defined.

End Reconnects.

Section AudioTurn.

Import RealTimeChat History.

Lemma rerun_effect_same (n : nat) (s : State) :
  totalMessages s = n -> rerun_effect n s = s.
Proof.
  intros H. unfold rerun_effect. now rewrite H, Nat.eqb_refl.
Qed.

Lemma sendMessage_keeps (t : string) (s : State) :
  recorders (state_of (sendMessage t s)) = recorders s /\
  totalMessages (state_of (sendMessage t s)) = totalMessages s /\
  isProcessing (state_of (sendMessage t s)) = true /\
  log (state_of (sendMessage t s)) = log s.
Proof.
  rewrite sendMessage_state. cbv zeta. destruct (ws_is_open s); repeat split.
Qed.

Lemma processAudio_resume_keeps (t : Transcription) (s : State) :
  recorders (state_of (processAudio_resume t s)) = recorders s /\
  totalMessages (state_of (processAudio_resume t s)) = totalMessages s.
Proof.
  rewrite processAudio_resume_state.
  destruct t as [| | |x]; try (split; reflexivity).
  destruct (nonempty (trim x)); [|split; reflexivity].
  destruct (sendMessage_keeps x s) as (H1 & H2 & _). now split.
Qed.


(** X7.  A refused microphone leaves the chat ready for another try: the
    click records nothing, shows an alert and keeps the controls enabled,
    and a following click with the microphone granted starts exactly one
    recording. *)
Theorem denied_microphone_can_be_retried :
  forall s : State,
    isProcessing s = false -> isRecording s = false ->
    exists s1 s2,
      handle (ClickMic false) s = Some s1 /\
      active_recordings s1 = active_recordings s /\
      isRecording s1 = false /\ isProcessing s1 = false /\
      log s1 = log s ++ [console_error "Erro ao acessar microfone:";
                         alert "Erro ao acessar microfone. Verifique as permissões."] /\
      handle (ClickMic true) s1 = Some s2 /\
      isRecording s2 = true /\
      active_recordings s2 = active_recordings s + 1.
Proof.
  intros s Hp Hr.
  exists (state_of (startRecording false s)).
  exists (state_of (startRecording true (state_of (startRecording false s)))).
  rewrite !startRecording_state.
  split; [cbn; now rewrite Hp, Hr|].
  split; [reflexivity|]. split; [exact Hr|]. split; [exact Hp|].
  split; [cbn; now rewrite <- app_assoc|].
  split; [cbn; now rewrite Hp, Hr|].
  split; [reflexivity|].
  unfold active_recordings. cbn.
  apply (filter_snoc_true is_recording). reflexivity.
Qed.

Lemma denied_microphone_can_be_retried_witness :
  isProcessing mount = false /\ isRecording mount = false /\
  exists s1 s2,
    handle (ClickMic false) mount = Some s1 /\
    handle (ClickMic true) s1 = Some s2 /\
    active_recordings s2 = 1.
Proof.
  assert (Hp : isProcessing mount = false) by reflexivity.
  assert (Hr : isRecording mount = false) by reflexivity.
  split; [exact Hp|]. split; [exact Hr|].
  destruct (denied_microphone_can_be_retried mount Hp Hr)
    as (s1 & s2 & H1 & _ & _ & _ & _ & H2 & _ & H3).
  exists s1, s2. split; [exact H1|]. split; [exact H2|exact H3].
Defined.

(** X8.  The microphone stream of a stopped recording is always released:
    once [stop()] has been called on a recorder, its stop event and the
    settling of the transcription request can both occur, and after them
    that recorder's tracks are stopped whatever the outcome of the
    transcription; the other recorders are untouched. *)
Theorem stopped_recording_is_released :
  forall (s : State) (i : nat) (t : Transcription),
    nth_error (recorders s) i = Some rec_stopping ->
    exists s',
      run [RecorderStop i; Transcribed i t] s = Some s' /\
      nth_error (recorders s') i = Some rec_done /\
      (forall j, j <> i -> nth_error (recorders s') j = nth_error (recorders s) j).
Proof.
  intros s i t H.
  set (s1 := setIsProcessing true
               (set_recorders (update_nth i (fun _ => rec_transcribing)) s)).
  assert (H1 : step (RecorderStop i) s = Some s1).
  { unfold step, handle. rewrite H. cbn [option_map]. f_equal.
    apply rerun_effect_same. reflexivity. }
  assert (Hr1 : nth_error (recorders s1) i = Some rec_transcribing).
  { unfold s1. cbn. rewrite update_nth_same, H. reflexivity. }
  destruct (processAudio_resume_keeps t s1) as [Hk Ht].
  set (s2 := release_stream i (state_of (processAudio_resume t s1))).
  assert (H2 : step (Transcribed i t) s1 = Some s2).
  { unfold step, handle. rewrite Hr1. cbn [option_map]. f_equal.
    apply rerun_effect_same. unfold s2, release_stream. cbn. exact Ht. }
  exists s2. split; [|split].
  - cbn [run]. rewrite H1, H2. reflexivity.
  - unfold s2, release_stream. cbn. rewrite Hk, update_nth_same, Hr1. reflexivity.
  - intros j Hj. unfold s2, release_stream. cbn. rewrite Hk.
    rewrite update_nth_other by congruence.
    unfold s1. cbn. apply update_nth_other. congruence.
Qed.

Lemma stopped_recording_is_released_witness :
  let s := state_of (stopRecording (state_of (startRecording true Scenario.online))) in
  nth_error (recorders s) 0 = Some rec_stopping /\
  exists s',
    run [RecorderStop 0; Transcribed 0 fetch_rejected] s = Some s' /\
    nth_error (recorders s') 0 = Some rec_done.
Proof.
  cbv zeta.
  assert (H : nth_error
                (recorders (state_of (stopRecording
                                        (state_of (startRecording true Scenario.online)))))
                0 = Some rec_stopping) by reflexivity.
  split; [exact H|].
  destruct (stopped_recording_is_released _ 0 fetch_rejected H) as (s' & H1 & H2 & _).
  exists s'. split; [exact H1|exact H2].
Defined.

End AudioTurn.

(** ** Voice of the spoken reply *)

Section VoiceChoice.

Import Speech.

Lemma find_all_false {A : Type} (p : A -> bool) (l : list A) :
  (forall x, In x l -> p x = false) -> find p l = None.
Proof.
  induction l as [|a r IH]; intros H; cbn; [reflexivity|].
  rewrite (H a (or_introl eq_refl)). apply IH. intros x Hx. apply H. now right.
Qed.

(** [Array.prototype.find] returns the first element that satisfies the
    test. *)
Lemma find_first {A : Type} (p : A -> bool) (l : list A) (x : A) :
  find p l = Some x ->
  exists before after,
    l = before ++ x :: after /\ p x = true /\
    forall y, In y before -> p y = false.
Proof.
  induction l as [|a r IH]; cbn; [discriminate|].
  destruct (p a) eqn:Pa.
  - intros H. injection H as <-. exists [], r.
    split; [reflexivity|]. split; [exact Pa|]. intros y [].
  - intros H. destruct (IH H) as (before & after & -> & Px & Hb).
    exists (a :: before), after.
    split; [reflexivity|]. split; [exact Px|].
    intros y [<-|Hy]; [exact Pa|exact (Hb y Hy)].
Qed.

(** X9.  [speakText] speaks with the first female English voice of the
    list of installed voices whenever there is one, otherwise with the
    first English voice, and leaves the voice unset exactly when no
    installed voice is English; the voice chosen is always one of the
    installed voices. *)
Theorem english_voice_choice :
  forall voices : list Voice,
    (englishVoice voices = None <->
     forall v, In v voices -> includes (lang v) "en" = false) /\
    (forall v, englishVoice voices = Some v ->
       In v voices /\ includes (lang v) "en" = true /\
       (includes (voice_name v) "Female" = false ->
        forall w, In w voices -> includes (lang w) "en" = true ->
                  includes (voice_name w) "Female" = false)) /\
    (forall v, englishVoice voices = Some v ->
       exists before after,
         voices = before ++ v :: after /\
         if includes (voice_name v) "Female"
         then forall w, In w before ->
                includes (lang w) "en" && includes (voice_name w) "Female" = false
         else forall w, In w before -> includes (lang w) "en" = false) /\
    (forall text, speakText false voices text = None) /\
    (forall text, option_map voice (speakText true voices text)
                  = Some (englishVoice voices)).
Proof.
  intros voices. unfold englishVoice.
  split; [|split; [|split; [|split]]]; try reflexivity.
  - split.
    + intros H v Hv.
      destruct (find _ voices) as [x|] eqn:F1 in H; [discriminate|].
      exact (find_none _ _ H v Hv).
    + intros H.
      rewrite (find_all_false _ voices).
      * apply find_all_false. exact H.
      * intros x Hx. now rewrite (H x Hx).
  - intros v H.
    destruct (find (fun voice => includes (lang voice) "en"
                                 && includes (voice_name voice) "Female") voices)
      as [x|] eqn:F1.
    + injection H as <-. apply find_some in F1. destruct F1 as [Hin Hb].
      apply andb_true_iff in Hb. destruct Hb as [He Hf].
      split; [exact Hin|]. split; [exact He|]. intros Hn. congruence.
    + apply find_some in H. destruct H as [Hin He].
      split; [exact Hin|]. split; [exact He|].
      intros _ w Hw Hwe. pose proof (find_none _ _ F1 w Hw) as Hb.
      cbn in Hb. now rewrite Hwe in Hb.
  - intros v H.
    destruct (find (fun voice => includes (lang voice) "en"
                                 && includes (voice_name voice) "Female") voices)
      as [x|] eqn:F1.
    + injection H as <-.
      destruct (find_first _ _ _ F1) as (before & after & E & Px & Hb).
      exists before, after. split; [exact E|].
      apply andb_true_iff in Px. destruct Px as [_ Hf]. rewrite Hf. exact Hb.
    + destruct (find_first _ _ _ H) as (before & after & E & Px & Hb).
      exists before, after. split; [exact E|].
      apply find_some in H. destruct H as [Hin _].
      pose proof (find_none _ _ F1 v Hin) as Hn. cbn in Hn.
      rewrite Px in Hn. cbn in Hn. rewrite Hn. exact Hb.
Qed.

(** Of two female English voices the one listed first is chosen, and a
    plain English voice listed before them is passed over. *)
Example first_female_english_voice :
  englishVoice [mkVoice "en-GB" "Daniel"; mkVoice "en-GB" "Google UK English Female";
                mkVoice "en-US" "Google US English Female"]
  = Some (mkVoice "en-GB" "Google UK English Female") /\
  englishVoice [mkVoice "pt-BR" "Luciana"; mkVoice "en-GB" "Daniel";
                mkVoice "en-US" "Alex"]
  = Some (mkVoice "en-GB" "Daniel").
Proof. split; reflexivity. Qed.

Lemma english_voice_choice_witness :
  englishVoice [mkVoice "pt-BR" "Luciana"; mkVoice "en-GB" "Daniel";
                mkVoice "en-US" "Google US English Female"]
  = Some (mkVoice "en-US" "Google US English Female") /\
  In (mkVoice "en-US" "Google US English Female")
    [mkVoice "pt-BR" "Luciana"; mkVoice "en-GB" "Daniel";
     mkVoice "en-US" "Google US English Female"].
Proof.
  assert (H : englishVoice [mkVoice "pt-BR" "Luciana"; mkVoice "en-GB" "Daniel";
                            mkVoice "en-US" "Google US English Female"]
              = Some (mkVoice "en-US" "Google US English Female")) by reflexivity.
  split; [exact H|].
  exact (proj1 (proj1 (proj2 (english_voice_choice _)) _ H)).
Defined.

End VoiceChoice.

(** ** One playback at a time *)

Section SinglePlayback.

Import AudioPlayer PlayerRuns.

Lemma update_nth_lookup {A : Type} (j i : nat) (f : A -> A) (l : list A) (a : A) :
  nth_error (update_nth j f l) i = Some a ->
  exists a0, nth_error l i = Some a0 /\ (a = a0 \/ (i = j /\ a = f a0)).
Proof.
  intros H. destruct (Nat.eq_dec j i) as [->|Hn].
  - rewrite update_nth_same in H.
    destruct (nth_error l i) as [a0|]; [|discriminate].
    injection H as <-. exists a0. split; [reflexivity|]. right. now split.
  - rewrite update_nth_other in H by exact Hn. exists a. split; [exact H|now left].
Qed.

(** An update that starts no element and keeps [audioRef] keeps the
    property. *)
Lemma only_current_update (s s' : State) (j : nat) (f : Audio -> Audio) :
  elements s' = update_nth j f (elements s) ->
  audioRef s' = audioRef s ->
  (forall a, paused (f a) = false -> paused a = false) ->
  only_current_plays s -> only_current_plays s'.
Proof.
  intros He Hr Hf H i a Hi Hp. rewrite He in Hi. rewrite He, Hr, update_nth_length.
  destruct (update_nth_lookup j i f (elements s) a Hi) as (a0 & H0 & [E|[_ E]]);
    rewrite E in Hp.
  - exact (H i a0 H0 Hp).
  - exact (H i a0 H0 (Hf a0 Hp)).
Qed.

Lemma playAudio_elements (b : nat) (accepted : bool) (s : State) :
  audioRef (state_of (playAudio b accepted s)) = Some (List.length (elements s)) /\
  elements (state_of (playAudio b accepted s))
  = match audioRef s with
    | Some i =>
        update_nth i (fun a => mkAudio (blob a) true (position a) (revoked a))
          (elements s)
    | None => elements s
    end ++ [mkAudio b (negb accepted) 0%Q false].
Proof.
  destruct accepted.
  - destruct (playAudio_accepted b s) as (_ & _ & H1 & H2). now split.
  - unfold playAudio, try_catch, bind, gets, modify, throw, ret, state_of.
    cbn. destruct (audioRef s) as [i|]; cbn.
    + rewrite update_nth_length. split; reflexivity.
    + split; reflexivity.
Qed.

Lemma apply_keeps_only_current (o : Op) (s : State) :
  only_current_plays s -> only_current_plays (apply o s).
Proof.
  intros H. destruct o as [b acc| | |t|d|t|i|i]; cbn [apply].
  - destruct (playAudio_elements b acc s) as [Hr He].
    intros i a Hi Hp. rewrite Hr, He, length_app. rewrite He in Hi. cbn.
    assert (Hlen : List.length
                     match audioRef s with
                     | Some j =>
                         update_nth j
                           (fun a => mkAudio (blob a) true (position a) (revoked a))
                           (elements s)
                     | None => elements s
                     end = List.length (elements s)).
    { destruct (audioRef s); [apply update_nth_length|reflexivity]. }
    rewrite Hlen.
    destruct (Nat.lt_ge_cases i (List.length (elements s))) as [Hlt|Hge].
    + exfalso. rewrite nth_error_app1 in Hi by (rewrite Hlen; exact Hlt).
      destruct (audioRef s) as [j|] eqn:Ej.
      * destruct (update_nth_lookup j i _ (elements s) a Hi)
          as (a0 & H0 & [E|[_ E]]).
        -- assert (Hp0 : paused a0 = false) by (now rewrite <- E).
           destruct (H i a0 H0 Hp0) as [Hc _]. rewrite Ej in Hc.
           injection Hc as Hc. subst j.
           rewrite update_nth_same, H0 in Hi. cbn in Hi. injection Hi as Hi.
           rewrite <- Hi in Hp. discriminate.
        -- rewrite E in Hp. discriminate.
      * destruct (H i a Hi Hp) as [Hc _]. rewrite Ej in Hc. discriminate.
    + assert (Hi' : nth_error
                      (match audioRef s with
                       | Some j =>
                           update_nth j
                             (fun a => mkAudio (blob a) true (position a) (revoked a))
                             (elements s)
                       | None => elements s
                       end ++ [mkAudio b (negb acc) 0%Q false]) i <> None)
        by (rewrite Hi; discriminate).
      apply nth_error_Some in Hi'. rewrite length_app, Hlen in Hi'. cbn in Hi'.
      assert (i = List.length (elements s)) by lia. subst i. split; [reflexivity|lia].
  - unfold pauseAudio. destruct (audioRef s) as [j|] eqn:E; [|exact H].
    apply (only_current_update s _ j
             (fun a => mkAudio (blob a) true (position a) (revoked a)));
      [reflexivity|reflexivity|discriminate|exact H].
  - unfold stopAudio. destruct (audioRef s) as [j|] eqn:E; [|exact H].
    apply (only_current_update s _ j
             (fun a => mkAudio (blob a) true 0%Q (revoked a)));
      [|reflexivity|discriminate|exact H].
    cbn. clear. revert j. induction (elements s) as [|x r IH]; intros [|j]; cbn; auto.
    now rewrite IH.
  - unfold seekTo. destruct (audioRef s) as [j|] eqn:E; [|exact H].
    apply (only_current_update s _ j
             (fun a => mkAudio (blob a) (paused a) t (revoked a)));
      [reflexivity|reflexivity|auto|exact H].
  - exact H.
  - exact H.
  - apply (only_current_update s _ i
             (fun a => mkAudio (blob a) (paused a) (position a) true));
      [reflexivity|reflexivity|auto|exact H].
  - apply (only_current_update s _ i
             (fun a => mkAudio (blob a) (paused a) (position a) true));
      [reflexivity|reflexivity|auto|exact H].
Qed.

Lemma run_ops_only_current (ops : list Op) :
  forall s, only_current_plays s -> only_current_plays (run_ops ops s).
Proof.
  induction ops as [|o ops IH]; intros s H; cbn; [exact H|].
  apply IH. now apply apply_keeps_only_current.
Qed.

End SinglePlayback.

Section PlaybackRuns.

Import AudioPlayer PlayerRuns.

Lemma initial_only_current : only_current_plays initial.
Proof.
  intros i a H. destruct i; discriminate.
Qed.

(** X10.  At most one artifact plays at a time: after any sequence of hook
    calls and element events, an element that is not paused is the one held
    in [audioRef], and it is the element created last. *)
Theorem only_latest_artifact_plays :
  forall (ops : list Op) (i : nat) (a : Audio),
    nth_error (elements (run_ops ops initial)) i = Some a ->
    paused a = false ->
    audioRef (run_ops ops initial) = Some i /\
    i + 1 = List.length (elements (run_ops ops initial)).
Proof.
  intros ops. exact (run_ops_only_current ops initial initial_only_current).
Qed.

Lemma only_latest_artifact_plays_witness :
  nth_error (elements (run_ops [Play 1 true; Pause; Play 2 true; Ended 0] initial)) 1
  = Some (mkAudio 2 false 0%Q false) /\
  audioRef (run_ops [Play 1 true; Pause; Play 2 true; Ended 0] initial) = Some 1.
Proof.
  assert (H : nth_error
                (elements (run_ops [Play 1 true; Pause; Play 2 true; Ended 0] initial)) 1
              = Some (mkAudio 2 false 0%Q false)) by reflexivity.
  split; [exact H|].
  exact (proj1 (only_latest_artifact_plays _ 1 _ H eq_refl)).
Defined.

Lemma all_paused_silent (l : list Audio) :
  (forall i a, nth_error l i = Some a -> paused a = true) ->
  map blob (filter (fun a => negb (paused a)) l) = [].
Proof.
  induction l as [|x r IH]; intros H; cbn; [reflexivity|].
  rewrite (H 0 x eq_refl). cbn. apply IH.
  intros i a Hi. exact (H (S i) a Hi).
Qed.

Lemma silent_when_current_paused (s : State) :
  only_current_plays s ->
  (forall j a, audioRef s = Some j -> nth_error (elements s) j = Some a ->
               paused a = true) ->
  playing s = [].
Proof.
  intros H Hc. unfold playing. apply all_paused_silent.
  intros i a Hi. destruct (paused a) eqn:Hp; [reflexivity|].
  destruct (H i a Hi Hp) as [Hr _].
  rewrite (Hc i a Hr Hi) in Hp. discriminate.
Qed.

(** X11.  [pauseAudio] and [stopAudio] silence the player whatever happened
    before: after either of them no element is playing. *)
Theorem pause_and_stop_silence :
  forall ops : list Op,
    playing (pauseAudio (run_ops ops initial)) = [] /\
    playing (stopAudio (run_ops ops initial)) = [].
Proof.
  intros ops.
  pose proof (run_ops_only_current ops initial initial_only_current) as H.
  set (s := run_ops ops initial) in *.
  split.
  - apply silent_when_current_paused.
    + exact (apply_keeps_only_current Pause s H).
    + unfold pauseAudio. destruct (audioRef s) as [k|] eqn:E.
      * cbn. intros j a Hj Ha. rewrite E in Hj. injection Hj as <-.
        rewrite update_nth_same in Ha.
        destruct (nth_error (elements s) k); [|discriminate].
        cbn in Ha. now injection Ha as <-.
      * intros j a Hj. rewrite E in Hj. discriminate.
  - apply silent_when_current_paused.
    + exact (apply_keeps_only_current Stop s H).
    + unfold stopAudio. destruct (audioRef s) as [k|] eqn:E.
      * cbn. intros j a Hj Ha. rewrite E in Hj. injection Hj as <-.
        rewrite !update_nth_same in Ha.
        destruct (nth_error (elements s) k); [|discriminate].
        cbn in Ha. now injection Ha as <-.
      * intros j a Hj. rewrite E in Hj. discriminate.
Qed.

End PlaybackRuns.

(** ** One connection at a time in AdvancedVoiceChat *)

Section LiveConnection.

Import AdvancedVoiceChat Settings.

Lemma count_update_nth {A : Type} (p : A -> bool) (f : A -> A) (l : list A) :
  forall (i : nat) (a : A),
    nth_error l i = Some a ->
    List.length (filter p (update_nth i f l)) + flag (p a)
    = List.length (filter p l) + flag (p (f a)).
Proof.
  induction l as [|x r IH]; intros [|j] a H; cbn in *; try discriminate.
  - injection H as ->. destruct (p a), (p (f a)); cbn; lia.
  - specialize (IH j a H). destruct (p x); cbn; lia.
Qed.

Lemma update_nth_missing {A : Type} (f : A -> A) (l : list A) :
  forall i, nth_error l i = None -> update_nth i f l = l.
Proof.
  induction l as [|x r IH]; intros [|j] H; cbn in *; try discriminate; auto.
  now rewrite IH.
Qed.

Lemma live_update (s : State) (i : nat) (f : ReadyState -> ReadyState) (a : ReadyState) :
  nth_error (sockets s) i = Some a ->
  List.length (filter is_live (update_nth i f (sockets s))) + flag (is_live a)
  = live s + flag (is_live (f a)).
Proof.
  intros H. unfold live. exact (count_update_nth is_live f (sockets s) i a H).
Qed.

Lemma handle_keeps_one_live (e : Event) (s s' : State) :
  handle e s = Some s' ->
  live s + List.length (timers s) = 1 ->
  live s' + List.length (timers s') = 1.
Proof.
  intros H Inv. destruct e as [i|i d|i|i| |seen]; cbn [handle] in H.
  - destruct (nth_error (sockets s) i) as [[]|] eqn:E; try discriminate.
    injection H as <-.
    pose proof (live_update s i (fun _ => OPEN) CONNECTING E) as L.
    unfold live in *. cbn in *. lia.
  - destruct (nth_error (sockets s) i) as [[]|]; try discriminate.
    injection H as <-.
    unfold onmessage, handleWebSocketMessage.
    destruct d as [[m|]|m|]; try exact Inv. destruct (nonempty m); exact Inv.
  - destruct (nth_error (sockets s) i) as [[]|]; try discriminate;
      injection H as <-; exact Inv.
  - destruct (nth_error (sockets s) i) as [r|] eqn:E; [|discriminate].
    pose proof (live_update s i (fun _ => CLOSED) r E) as L.
    destruct r; try discriminate; injection H as <-;
      unfold live in *; cbn in *; rewrite length_app; cbn; lia.
  - destruct (timers s) as [|d rest] eqn:E; [discriminate|]. injection H as <-.
    unfold live in *. cbn in *. rewrite filter_app, length_app. cbn. lia.
  - injection H as <-. destruct seen as [i|]; [|exact Inv].
    unfold cleanup, ws_close, live in *. cbn.
    destruct (nth_error (sockets s) i) as [r|] eqn:E.
    + pose proof (count_update_nth is_live
                    (fun r => match r with
                              | CONNECTING | OPEN => CLOSING
                              | CLOSING | CLOSED => r
                              end) (sockets s) i r E) as L.
      destruct r; cbn in L; lia.
    + now rewrite update_nth_missing.
Qed.

(** X12.  [AdvancedVoiceChat] never holds two connections: along any run
    from the mounted component, the sockets that are not closed and the
    pending reconnection timers number exactly one together, so there is
    either one live socket or one scheduled reconnection, never both and
    never more. *)
Theorem one_connection_or_one_timer :
  forall (es : list Event) (s' : State),
    run es mount = Some s' ->
    live s' + List.length (timers s') = 1.
Proof.
  intros es.
  assert (G : forall s s', run es s = Some s' ->
                live s + List.length (timers s) = 1 ->
                live s' + List.length (timers s') = 1).
  { induction es as [|e es IH]; intros s s' H Inv; cbn in H.
    - now injection H as <-.
    - destruct (handle e s) as [s1|] eqn:E; [|discriminate].
      exact (IH s1 s' H (handle_keeps_one_live e s s1 E Inv)). }
  intros s' H. apply (G mount s' H). reflexivity.
Qed.

Lemma one_connection_or_one_timer_witness :
  exists s',
    run [SocketOpen 0; SocketError 0; SocketClose 0; TimerFires; Teardown (Some 1)] mount
    = Some s' /\
    live s' + List.length (timers s') = 1.
Proof.
  destruct (run [SocketOpen 0; SocketError 0; SocketClose 0; TimerFires;
                 Teardown (Some 1)] mount) as [s'|] eqn:E;
    [|vm_compute in E; discriminate].
  exists s'. split; [reflexivity|].
  exact (one_connection_or_one_timer _ s' E).
Defined.

End LiveConnection.

(** ** The request/response turn of AdvancedVoiceChat *)

Section ChatTurn.

Import AdvancedVoiceChat Settings.




Lemma avc_sendMessage_blank (seen : Render) (text : string) (c : ChatOutcome)
  (s : State) :
  nonempty (trim text) = false -> sendMessage seen text c s = (inr tt, s).
Proof.
  intros H. unfold sendMessage. now rewrite H.
Qed.



End ChatTurn.

(** ** Settings of AdvancedVoiceChat *)

Section SettingsFacts.

Import AdvancedVoiceChat Settings.



(** X16.  [clearHistory] empties the conversation whenever the DELETE
    request resolves, also when the server answers with an error status; a
    rejected request keeps every message and logs the error.  [switchModel]
    changes [currentModel] only on an ok response, to the model the server
    names, not to the one asked for; it logs an error when the request or
    the reading of its body fails.  Neither touches the mode, the automatic
    switching flag or the requests made.  [clearHistory] leaves the pin as
    it is; after [switchModel] the pin is the new [currentModel] when
    automatic switching is off, and there is still none when it is on. *)
Theorem settings_requests :
  forall (s : State) (r : Http unit),
    result (clearHistory r s) = inr tt /\
    messages (state_of (clearHistory r s))
    = match r with rejected => messages s | _ => [] end /\
    log (state_of (clearHistory r s))
    = match r with
      | rejected => log s ++ [console_error "Erro ao limpar histórico:"]
      | _ => log s
      end /\
    conversationMode (state_of (clearHistory r s)) = conversationMode s /\
    autoModelSwitch (state_of (clearHistory r s)) = autoModelSwitch s /\
    requests (state_of (clearHistory r s)) = requests s /\
    ModelSelection.pin_of (state_of (clearHistory r s)) = ModelSelection.pin_of s /\
    (forall (asked : string) (m : Http string),
        result (switchModel asked m s) = inr tt /\
        currentModel (state_of (switchModel asked m s))
        = match m with ok_body named => named | _ => currentModel s end /\
        log (state_of (switchModel asked m s))
        = match m with
          | rejected | ok_unreadable => log s ++ [console_error "Erro ao trocar modelo:"]
          | _ => log s
          end /\
        conversationMode (state_of (switchModel asked m s)) = conversationMode s /\
        autoModelSwitch (state_of (switchModel asked m s)) = autoModelSwitch s /\
        requests (state_of (switchModel asked m s)) = requests s /\
        messages (state_of (switchModel asked m s)) = messages s /\
        ModelSelection.pin_of (state_of (switchModel asked m s))
        = if autoModelSwitch s
          then None
          else Some (match m with ok_body named => named | _ => currentModel s end)).
Proof.
  intros s r.
  split; [now destruct r|]. split; [now destruct r|]. split; [now destruct r|].
  split; [now destruct r|]. split; [now destruct r|]. split; [now destruct r|].
  split; [now destruct r|].
  intros asked m. destruct m; repeat split.
Qed.

End SettingsFacts.

(** ** Text side of VoiceInput *)

Section VoiceInputFacts.

Import VoiceInput.

Lemma handleSendText_clean (s : State) : clean s -> clean (handleSendText s).
Proof.
  intros H. unfold handleSendText.
  destruct (nonempty (trim (textInput s))) eqn:E; [|exact H].
  unfold clean. cbn. apply Forall_app. split; [exact H|].
  constructor; [|constructor]. split; [exact E|apply trim_idempotent].
Qed.

Lemma handle_clean (loading : bool) (e : Event) (s : State) :
  clean s -> clean (handle loading e s).
Proof.
  intros H. unfold handle. destruct loading; [exact H|].
  destruct e as [t|key shift| ].
  - exact H.
  - unfold handleKeyPress.
    destruct ((key =? "Enter")%string && negb shift); [|exact H].
    now apply handleSendText_clean.
  - destruct (nonempty (trim (textInput s))); [|exact H].
    now apply handleSendText_clean.
Qed.

(** X17.  VoiceInput never passes blank or untrimmed text on: after any
    sequence of typing, key presses and clicks, every text given to
    [onSendMessage] is non-empty and already trimmed.  Nothing is sent while
    loading, on Shift+Enter, or on a key other than Enter. *)
Theorem voice_input_sends_clean_text :
  forall (es : list (bool * Event)),
    Forall (fun t => nonempty t = true /\ trim t = t)
      (sent_messages (run_input es (mkState "" []))) /\
    (forall e s, handle true e s = s) /\
    (forall key s, handleKeyPress key true s = s) /\
    (forall key shift s, key <> "Enter" -> handleKeyPress key shift s = s).
Proof.
  intros es. split; [|split; [|split]].
  - assert (G : forall s, clean s -> clean (run_input es s)).
    { induction es as [|e es IH]; intros s H; cbn; [exact H|].
      apply IH. now apply handle_clean. }
    apply (G (mkState "" [])). constructor.
  - reflexivity.
  - intros key s. unfold handleKeyPress. now rewrite andb_false_r.
  - intros key shift s Hk. unfold handleKeyPress.
    apply String.eqb_neq in Hk. now rewrite Hk.
Qed.

Lemma voice_input_sends_clean_text_witness :
  "a" <> "Enter" /\
  handleKeyPress "a" false (mkState "hello" []) = mkState "hello" [] /\
  sent_messages (run_input [(false, Typed " hello "); (false, KeyPress "Enter" false)]
                   (mkState "" []))
  = ["hello"].
Proof.
  assert (H : "a" <> "Enter") by discriminate.
  split; [exact H|]. split; [|reflexivity].
  exact (proj2 (proj2 (proj2 (voice_input_sends_clean_text [])))
           "a" false (mkState "hello" []) H).
Defined.

End VoiceInputFacts.

(** ** How the player operations compose *)

Section PlayerAlgebra.

Import AudioPlayer.

Lemma update_nth_compose {A : Type} (i : nat) (f g : A -> A) (l : list A) :
  update_nth i g (update_nth i f l) = update_nth i (fun a => g (f a)) l.
Proof.
  revert i. induction l as [|x r IH]; intros [|j]; cbn; auto.
  now rewrite IH.
Qed.

Ltac expand_player :=
  unfold setCurrentTime, setIsPlaying, seek, pause, update_element, set_elements;
  cbn [isPlaying currentTime duration audioRef elements errors].

Lemma stopAudio_elements (s : State) (j : nat) :
  audioRef s = Some j ->
  stopAudio s
  = mkState false 0%Q (duration s) (Some j)
      (update_nth j (fun a => mkAudio (blob a) true 0%Q (revoked a)) (elements s))
      (errors s).
Proof.
  intros E. unfold stopAudio. rewrite E.
  unfold seek, pause, update_element, set_elements, setIsPlaying, setCurrentTime.
  cbn. rewrite update_nth_compose, E. reflexivity.
Qed.

(** X18.  [stopAudio] is idempotent and absorbs an earlier [pauseAudio] or
    [seekTo]: stopping twice, or pausing or seeking and then stopping, leaves
    the player exactly as one [stopAudio] does, with the current element
    paused at position 0.  With no element, all three operations change
    nothing. *)
Theorem stop_absorbs :
  forall (s : State) (t : Q),
    stopAudio (stopAudio s) = stopAudio s /\
    stopAudio (pauseAudio s) = stopAudio s /\
    stopAudio (seekTo t s) = stopAudio s /\
    pauseAudio (pauseAudio s) = pauseAudio s /\
    (audioRef s = None ->
     stopAudio s = s /\ pauseAudio s = s /\ seekTo t s = s) /\
    (forall j a, audioRef s = Some j -> nth_error (elements s) j = Some a ->
       nth_error (elements (stopAudio s)) j = Some (mkAudio (blob a) true 0%Q (revoked a)) /\
       currentTime (stopAudio s) = 0%Q /\ isPlaying (stopAudio s) = false).
Proof.
  intros s t. destruct (audioRef s) as [j|] eqn:E.
  - rewrite (stopAudio_elements s j E).
    split; [|split; [|split; [|split; [|split]]]].
    + unfold stopAudio. cbn [audioRef]. expand_player.
      now rewrite !update_nth_compose.
    + unfold stopAudio, pauseAudio. rewrite E. expand_player. rewrite E.
      expand_player. now rewrite !update_nth_compose.
    + unfold stopAudio, seekTo. rewrite E. expand_player. rewrite E.
      expand_player. now rewrite !update_nth_compose.
    + unfold pauseAudio. rewrite E. expand_player. rewrite E.
      expand_player. now rewrite !update_nth_compose.
    + discriminate.
    + intros k a Hk Ha. injection Hk as <-. cbn.
      rewrite update_nth_same, Ha. repeat split.
  - unfold stopAudio, pauseAudio, seekTo. rewrite E.
    repeat split; try (now rewrite E); congruence.
Qed.

Lemma stop_absorbs_witness :
  let s := state_of (playAudio 1 true initial) in
  audioRef s = Some 0 /\
  nth_error (elements (stopAudio (seekTo 5%Q s))) 0 = Some (mkAudio 1 true 0%Q false).
Proof.
  cbv zeta.
  assert (E : audioRef (state_of (playAudio 1 true initial)) = Some 0) by reflexivity.
  split; [exact E|].
  destruct (stop_absorbs (state_of (playAudio 1 true initial)) 5%Q)
    as (_ & _ & H3 & _ & _ & H6).
  rewrite H3. exact (proj1 (H6 0 (mkAudio 1 false 0%Q false) E eq_refl)).
Defined.

End PlayerAlgebra.

(** ** The reconnection that follows a counted reply *)

Section StaleHandler.

Import RealTimeChat History.

Ltac expand_chat :=
  unfold onclose, set_readyState, set_timers, set_sockets, report;
  cbn [messages isRecording isProcessing inputText avgResponseTime totalMessages
       sockets wsRef timers recorders mediaRecorderRef log spoken].

(** X19.  After a counted reply, the socket that the effect closed still
    runs its [onclose]: once its close event and the timer it schedules have
    occurred, [wsRef] holds a socket made by the old [connectWebSocket],
    whose handlers captured the count from before the reply, while the
    socket the effect opened with the current count is no longer the one in
    [wsRef]. *)
Theorem stale_socket_replaces_fresh_one :
  forall (s : State) (i : nat) (c : string) (q : float),
    wsRef s = Some i -> socket_state i s = Some OPEN -> timers s = [] ->
    truthy (Some q) = true ->
    exists s3,
      run [SocketMessage i (chat_response c (Some q)); SocketClose i; TimerFires] s
      = Some s3 /\
      totalMessages s3 = totalMessages s + 1 /\
      wsRef s3 = Some (List.length (sockets s) + 1) /\
      socket_state (List.length (sockets s) + 1) s3 = Some CONNECTING /\
      socket_closure (List.length (sockets s) + 1) s3 = socket_closure i s /\
      socket_closure (List.length (sockets s)) s3 = totalMessages s + 1.
Proof.
  intros s i c q Hw Ho Ht Hq.
  unfold socket_state in Ho.
  destruct (nth_error (sockets s) i) as [k|] eqn:Ek; [|discriminate].
  cbn in Ho. injection Ho as Ho.
  assert (Hc : socket_closure i s = closure k).
  { unfold socket_closure. now rewrite Ek. }
  set (s0 := onmessage (closure k) (chat_response c (Some q)) s).
  assert (E0 : s0 = speakText c
                      (setAvgResponseTime
                         (fun prev => Stats.update (closure k) prev q)
                         (setTotalMessages (fun prev => prev + 1)
                            (setIsProcessing false
                               (setMessages
                                  (fun prev => prev ++ [mkMessage assistant c (Some q)]) s))))).
  { unfold s0, onmessage. now rewrite Hq. }
  set (closed := update_nth i
                   (fun x => match readyState x with
                             | CONNECTING | OPEN => mkSocket CLOSING (closure x) (sent x)
                             | CLOSING | CLOSED => x
                             end) (sockets s)).
  assert (Hlen : List.length closed = List.length (sockets s))
    by apply update_nth_length.
  assert (Hci : nth_error closed i = Some (mkSocket CLOSING (closure k) (sent k))).
  { unfold closed. rewrite update_nth_same, Ek. cbn. now rewrite Ho. }
  set (fresh := mkSocket CONNECTING (totalMessages s + 1) []).
  set (s1 := connectWebSocket (totalMessages s + 1) (cleanup s0)).
  assert (S1 : sockets s1 = closed ++ [fresh]).
  { unfold s1, cleanup. rewrite E0. cbn. rewrite Hw. reflexivity. }
  assert (H1 : step (SocketMessage i (chat_response c (Some q))) s = Some s1).
  { unfold step, handle, socket_state. rewrite Ek. cbn [option_map]. rewrite Ho, Hc.
    cbn [option_map]. fold s0. unfold rerun_effect.
    assert (T0 : totalMessages s0 = totalMessages s + 1) by (rewrite E0; reflexivity).
    rewrite T0.
    destruct (Nat.eqb_spec (totalMessages s + 1) (totalMessages s)); [lia|].
    reflexivity. }
  assert (T1 : totalMessages s1 = totalMessages s + 1).
  { unfold s1, cleanup. rewrite E0. cbn. rewrite Hw. reflexivity. }
  assert (Tm1 : timers s1 = []).
  { unfold s1, cleanup. rewrite E0. cbn. rewrite Hw. exact Ht. }
  assert (N1 : nth_error (sockets s1) i = Some (mkSocket CLOSING (closure k) (sent k))).
  { rewrite S1. now apply nth_error_snoc_old. }
  set (s2 := onclose (closure k) (set_readyState i CLOSED s1)).
  assert (H2 : step (SocketClose i) s1 = Some s2).
  { unfold step, handle, socket_state, socket_closure. rewrite N1.
    cbn [option_map readyState closure]. f_equal. apply rerun_effect_same.
    reflexivity. }
  assert (S2 : List.length (sockets s2) = List.length (sockets s) + 1).
  { unfold s2. expand_chat.
    rewrite update_nth_length, S1, length_app, Hlen. reflexivity. }
  assert (F2 : nth_error (sockets s2) (List.length (sockets s)) = Some fresh).
  { unfold s2. expand_chat. rewrite update_nth_other.
    - rewrite S1, <- Hlen. apply nth_error_snoc.
    - intros ->. rewrite <- Hlen in Hci.
      assert (nth_error closed (List.length closed) <> None) by (rewrite Hci; discriminate).
      apply nth_error_Some in H. lia. }
  assert (Tm2 : timers s2 = [mkTimer RECONNECT_DELAY (closure k)]).
  { unfold s2. expand_chat. now rewrite Tm1. }
  set (s3 := connectWebSocket (closure k) (set_timers (fun _ => []) s2)).
  assert (H3 : step TimerFires s2 = Some s3).
  { unfold step, handle. rewrite Tm2. cbn [option_map timer_closure]. f_equal.
    apply rerun_effect_same. reflexivity. }
  assert (S3 : sockets s3 = sockets s2 ++ [mkSocket CONNECTING (closure k) []])
    by reflexivity.
  exists s3. split; [|split; [|split; [|split; [|split]]]].
  - cbn [run]. rewrite H1, H2, H3. reflexivity.
  - change (totalMessages s3) with (totalMessages s1). exact T1.
  - change (wsRef s3) with (Some (List.length (sockets s2))). now rewrite S2.
  - unfold socket_state. rewrite S3, <- S2, nth_error_snoc. reflexivity.
  - unfold socket_closure at 1. rewrite S3, <- S2, nth_error_snoc. cbn. now rewrite Hc.
  - unfold socket_closure. rewrite S3, (nth_error_snoc_old _ _ _ _ F2). reflexivity.
Qed.

Lemma stale_socket_replaces_fresh_one_witness :
  wsRef Scenario.online = Some 0 /\
  socket_state 0 Scenario.online = Some OPEN /\
  timers Scenario.online = [] /\
  exists s3,
    run [SocketMessage 0 (chat_response "ok" (Some 2%float)); SocketClose 0; TimerFires]
      Scenario.online = Some s3 /\
    totalMessages s3 = 1 /\ wsRef s3 = Some 2 /\ socket_closure 2 s3 = 0.
Proof.
  assert (Hw : wsRef Scenario.online = Some 0) by reflexivity.
  assert (Ho : socket_state 0 Scenario.online = Some OPEN) by reflexivity.
  assert (Ht : timers Scenario.online = []) by reflexivity.
  assert (Hq : truthy (Some 2%float) = true) by reflexivity.
  split; [exact Hw|]. split; [exact Ho|]. split; [exact Ht|].
  destruct (stale_socket_replaces_fresh_one Scenario.online 0 "ok" 2%float Hw Ho Ht Hq)
    as (s3 & H1 & H2 & H3 & _ & H5 & _).
  exists s3. split; [exact H1|]. split; [exact H2|]. split; [exact H3|exact H5].
Defined.

End StaleHandler.

(** ** The connection indicator of AdvancedVoiceChat *)

Section Indicator.

Import AdvancedVoiceChat Settings.

Lemma handle_keeps_indicator (e : Event) (s s' : State) :
  handle e s = Some s' -> indicator_sound s -> indicator_sound s'.
Proof.
  intros H [Hw Hc]. destruct e as [i|i d|i|i| |seen]; cbn [handle] in H.
  - destruct (nth_error (sockets s) i) as [[]|] eqn:E; try discriminate.
    injection H as <-. split.
    + intros j Hj. cbn in Hj. injection Hj as <-. left. cbn.
      now rewrite update_nth_same, E.
    + cbn. discriminate.
  - destruct (nth_error (sockets s) i) as [[]|]; try discriminate.
    injection H as <-. unfold onmessage, handleWebSocketMessage.
    destruct d as [[m|]|m|]; try (now split). destruct (nonempty m); now split.
  - destruct (nth_error (sockets s) i) as [[]|]; try discriminate;
      injection H as <-; (split; [exact Hw|cbn; discriminate]).
  - destruct (nth_error (sockets s) i) as [[]|]; try discriminate;
      injection H as <-; (split; [cbn; discriminate|cbn; discriminate]).
  - destruct (timers s) as [|d rest]; [discriminate|]. injection H as <-. split.
    + intros j Hj. cbn in Hj |- *. destruct (Hw j Hj) as [E|E].
      * left. now apply nth_error_snoc_old.
      * right. now apply nth_error_snoc_old.
    + cbn. discriminate.
  - injection H as <-. destruct seen as [k|]; [|now split]. split; [|exact Hc].
    intros j Hj. cbn in Hj |- *. specialize (Hw j Hj).
    destruct (Nat.eq_dec k j) as [->|Hn].
    + rewrite update_nth_same. destruct Hw as [E|E]; rewrite E; now right.
    + rewrite update_nth_other by exact Hn. exact Hw.
Qed.

(** X20.  The green indicator of AdvancedVoiceChat is sound: along any run
    from the mounted component, whenever the status is [connected],
    [wsConnection] holds a socket that is open or closing. *)
Theorem connected_means_socket :
  forall (es : list Event) (s' : State),
    run es mount = Some s' ->
    connectionStatus s' = connected ->
    exists i, wsConnection s' = Some i /\
              (nth_error (sockets s') i = Some OPEN \/
               nth_error (sockets s') i = Some CLOSING).
Proof.
  intros es.
  assert (G : forall s s', run es s = Some s' -> indicator_sound s -> indicator_sound s').
  { induction es as [|e es IH]; intros s s' H Inv; cbn in H.
    - now injection H as <-.
    - destruct (handle e s) as [s1|] eqn:E; [|discriminate].
      exact (IH s1 s' H (handle_keeps_indicator e s s1 E Inv)). }
  intros s' H Hc.
  assert (Inv : indicator_sound mount) by (split; [discriminate|discriminate]).
  destruct (G mount s' H Inv) as [Hw Hn].
  destruct (wsConnection s') as [i|] eqn:E.
  - exists i. split; [reflexivity|]. now apply Hw.
  - now destruct (Hn Hc).
Qed.

Lemma connected_means_socket_witness :
  exists s',
    run [SocketOpen 0; Teardown (Some 0)] mount = Some s' /\
    connectionStatus s' = connected /\
    exists i, wsConnection s' = Some i /\
              (nth_error (sockets s') i = Some OPEN \/
               nth_error (sockets s') i = Some CLOSING).
Proof.
  destruct (run [SocketOpen 0; Teardown (Some 0)] mount) as [s'|] eqn:E;
    [|vm_compute in E; discriminate].
  assert (Hc : connectionStatus s' = connected).
  { vm_compute in E. injection E as <-. reflexivity. }
  exists s'. split; [reflexivity|]. split; [exact Hc|].
  exact (connected_means_socket _ s' E Hc).
Defined.

End Indicator.
